(** * FileUtils: the operation dispatcher and its error normalizer

    A shallow embedding of [src/file.utils.js] (class [FileUtilsError] and
    class [FileUtils]) together with a model of the platform it runs on:
    Node's [path.resolve] / [path.dirname], the promise API of [fs]
    ([access], [mkdir], [readFile], [writeFile], [unlink], [rm]) and the
    [download] method of an Express response.

    JavaScript's [async] functions are modelled in a state-and-exception
    monad over a [World] that holds the file tree, the working directory,
    the log of platform calls, the bytes streamed to responses and the
    requests those responses answer. *)

From Stdlib Require Import Strings.String Strings.Ascii Strings.Byte.
From stdpp Require Import base option list gmap strings.

Set Warnings "-register-all".
Set Default Proof Using "Type".

Local Open Scope string_scope.
Local Open Scope list_scope.

(** ** JavaScript error values *)

(** An error object as the program sees it: a plain [Error] (possibly a
    system error, which then carries a [code]) or a [FileUtilsError], which
    carries the operation, the path and the error it wraps.  A
    [FileUtilsError] has no [code] property. *)
Inductive jserror : Type :=
  | Error (message : string) (code : option string)
  | MkFileUtilsError (message operation filePath : string) (originalError : jserror).

Definition err_message (e : jserror) : string :=
  match e with
  | Error m _ => m
  | MkFileUtilsError m _ _ _ => m
  end.

Definition err_code (e : jserror) : option string :=
  match e with
  | Error _ c => c
  | MkFileUtilsError _ _ _ _ => None
  end.

Definition err_operation (e : jserror) : option string :=
  match e with
  | Error _ _ => None
  | MkFileUtilsError _ op _ _ => Some op
  end.

Definition err_filePath (e : jserror) : option string :=
  match e with
  | Error _ _ => None
  | MkFileUtilsError _ _ p _ => Some p
  end.

Definition err_originalError (e : jserror) : option jserror :=
  match e with
  | Error _ _ => None
  | MkFileUtilsError _ _ _ o => Some o
  end.

(** [error instanceof FileUtilsError] *)
Definition instanceof_FileUtilsError (e : jserror) : bool :=
  match e with
  | Error _ _ => false
  | MkFileUtilsError _ _ _ _ => true
  end.

(** A raw error: one that has not been through the normalizer. *)
Definition is_raw (e : jserror) : bool := negb (instanceof_FileUtilsError e).

(** Truthiness of a string: only the empty string is falsy. *)
Definition truthy (s : string) : bool :=
  match s with
  | EmptyString => false
  | String _ _ => true
  end.

(** [static formatErrorMessage(error)] *)
Definition formatErrorMessage (error : jserror) : string :=
  match err_code error with
  | Some c =>
      if truthy c then
        if String.eqb c "ENOENT" then "File not found"
        else if String.eqb c "EACCES" then "Permission denied"
        else if String.eqb c "ENOTDIR" then "Not a directory"
        else if String.eqb c "EISDIR" then "Is a directory, not a file"
        else err_message error
      else err_message error
  | None => err_message error
  end.

(** [new FileUtilsError(originalError, operation, filePath)] *)
Definition FileUtilsError (originalError : jserror) (operation filePath : string) : jserror :=
  MkFileUtilsError (formatErrorMessage originalError) operation filePath originalError.

(** ** Paths *)

(** An absolute, normalised path is kept as its list of segments; the root
    is the empty list. *)
Definition path : Type := list string.

Fixpoint split_slash (cur s : string) : list string :=
  match s with
  | EmptyString => [cur]
  | String c s' =>
      if Ascii.eqb c "/"%char then cur :: split_slash EmptyString s'
      else split_slash (cur +:+ String c EmptyString) s'
  end.

Definition is_absolute (s : string) : bool :=
  match s with
  | String c _ => Ascii.eqb c "/"%char
  | EmptyString => false
  end.

(** One step of normalisation: the empty segment and ["."] are skipped, [".."] drops the
    last segment (and stays at the root), anything else is appended. *)
Definition push_segment (acc : path) (seg : string) : path :=
  if String.eqb seg EmptyString then acc
  else if String.eqb seg "." then acc
  else if String.eqb seg ".." then removelast acc
  else acc ++ [seg].

(** [path.resolve(p)] for a process whose working directory is [cwd]. *)
Definition path_resolve (cwd : path) (p : string) : path :=
  fold_left push_segment (split_slash EmptyString p) (if is_absolute p then [] else cwd).

(** [path.dirname(p)] on an absolute normalised path. *)
Definition path_dirname (p : path) : path := removelast p.

(** The string of an absolute normalised path. *)
Definition path_show (p : path) : string :=
  match p with
  | [] => "/"
  | _ => fold_right (fun seg acc => "/" +:+ seg +:+ acc) EmptyString p
  end.

(** ** The file tree *)

Inductive node : Type :=
  | File (content : list byte)
  | Dir (entries : gmap string node).

(** A name the platform does not take: one with a NUL byte, which Node
    refuses ([ERR_INVALID_ARG_VALUE]), or one of more than 255 bytes, which
    the file system refuses ([ENAMETOOLONG]). *)
Inductive refusal : Type :=
  | NulByte
  | NameTooLong.

Fixpoint has_nul (s : string) : bool :=
  match s with
  | EmptyString => false
  | String c s' => Ascii.eqb c Ascii.zero || has_nul s'
  end.

Definition too_long (s : string) : bool := Nat.ltb 255 (String.length s).

Definition name_refusal (x : string) : option refusal :=
  if has_nul x then Some NulByte
  else if too_long x then Some NameTooLong
  else None.

(** What a path lookup finds: a node, nothing ([ENOENT]), a regular file in
    the way of the remaining segments ([ENOTDIR]), or a name that is
    refused. *)
Inductive lookup_result : Type :=
  | Found (n : node)
  | NotFound
  | NotDir
  | Refused (r : refusal).

(** The tree is an [option node]: [None] when nothing exists, not even the
    root.  The lookup walks the path segment by segment, as the kernel does,
    and stops at the first that is missing, is below a regular file, or is
    refused: a name that is too long is refused when the walk reaches it in
    a directory, and no entry is ever found under a name with a NUL byte.
    So a path that leads to a node has names the platform takes.  (Node
    itself refuses a path with a NUL byte before any walk: see [fs] below.)
    Refusals that depend on permissions, mounts or quotas, and the limit on
    the length of a whole path, are outside the model. *)
Fixpoint stat (o : option node) (p : path) : lookup_result :=
  match o with
  | None => NotFound
  | Some n =>
      match p with
      | [] => Found n
      | x :: q =>
          if has_nul x then Refused NulByte
          else
            match n with
            | File _ => NotDir
            | Dir ch =>
                if too_long x then Refused NameTooLong
                else stat (ch !! x) q
            end
      end
  end.

Definition exists_at (o : option node) (p : path) : bool :=
  match stat o p with
  | Found _ => true
  | _ => false
  end.

(** Replace what is at [p] by [f] of it; nothing happens when [p] cannot be
    reached. *)
Fixpoint alter_at (f : option node -> option node) (p : path) (o : option node) : option node :=
  match p with
  | [] => f o
  | x :: q =>
      match o with
      | Some (Dir ch) => Some (Dir (partial_alter (alter_at f q) x ch))
      | _ => o
      end
  end.

(** Remove the node at [p] with everything below it. *)
Definition remove_at (p : path) (o : option node) : option node :=
  alter_at (fun _ => None) p o.

(** Create the directories of [p] that are missing. *)
Fixpoint mkdirp (p : path) (o : option node) : option node :=
  match p with
  | [] => match o with None => Some (Dir ∅) | _ => o end
  | x :: q =>
      match o with
      | Some (File _) => o
      | Some (Dir ch) => Some (Dir (partial_alter (mkdirp q) x ch))
      | None => Some (Dir (partial_alter (mkdirp q) x ∅))
      end
  end.

Inductive errno : Type := ENOENT | ENOTDIR | EISDIR | EEXIST | ENAMETOOLONG.

(** Why a call on a path fails: a system error, or a refused name. *)
Inductive fault : Type :=
  | Sys (e : errno)
  | Refusal (r : refusal).

(** Create or overwrite the regular file at [p]; the names are checked as
    the lookup checks them. *)
Fixpoint put_file (p : path) (c : list byte) (o : option node) : fault + option node :=
  match p with
  | [] =>
      match o with
      | Some (Dir _) => inl (Sys EISDIR)
      | _ => inr (Some (File c))
      end
  | x :: q =>
      match o with
      | None => inl (Sys ENOENT)
      | Some n =>
          if has_nul x then inl (Refusal NulByte)
          else
            match n with
            | File _ => inl (Sys ENOTDIR)
            | Dir ch =>
                if too_long x then inl (Refusal NameTooLong)
                else
                  match put_file q c (ch !! x) with
                  | inl e => inl e
                  | inr o' => inr (Some (Dir (partial_alter (fun _ => o') x ch)))
                  end
            end
      end
  end.

(** The root itself is never created as a regular file. *)
Definition write_at (p : path) (c : list byte) (o : option node) : fault + option node :=
  match p, o with
  | [], None => inl (Sys ENOENT)
  | _, _ => put_file p c o
  end.

(** The names of a path up to the first that is refused, and that refusal. *)
Fixpoint accepted_prefix (p : path) : path :=
  match p with
  | [] => []
  | x :: q =>
      match name_refusal x with
      | None => x :: accepted_prefix q
      | Some _ => []
      end
  end.

Fixpoint path_refusal (p : path) : option refusal :=
  match p with
  | [] => None
  | x :: q =>
      match name_refusal x with
      | None => path_refusal q
      | Some r => Some r
      end
  end.

(** A path the platform takes whatever the tree holds: no name is refused
    and the whole path is shorter than [PATH_MAX]. *)
Definition portable (p : path) : bool :=
  forallb (fun x => bool_decide (name_refusal x = None)) p
  && Nat.ltb (String.length (path_show p)) 4096.

(** ** The world and the monad of asynchronous computations *)

(** An Express response, known by the number of its connection. *)
Record Response : Type := { connection : nat }.

(** The platform calls a computation makes, in order. *)
Inductive call : Type :=
  | Access (p : path)
  | Mkdir (p : path)
  | ReadFile (p : path)
  | WriteFile (p : path)
  | Unlink (p : path)
  | Rm (p : path)
  | Download (r : Response) (p : path).

(** The request behind a response, as far as a download looks at it: its
    method, how its validators (If-Match, If-None-Match, If-Modified-Since,
    If-Unmodified-Since) compare with the file, and its byte range, if it
    asks for a single range that is to be honoured. *)
Inductive Method : Type := GET | HEAD.

Inductive Validation : Type :=
  | Unconditional
  | NotModified
  | PreconditionFailed.

Inductive RangeSpec : Type :=
  | Bytes (first last : nat)
  | BytesFrom (first : nat)
  | LastBytes (n : nat).

Record Request : Type := {
  method : Method;
  validation : Validation;
  range : option RangeSpec
}.

(** A plain GET. *)
Definition plain_get : Request :=
  {| method := GET; validation := Unconditional; range := None |}.

(** The working directory of a process is a path the kernel gave out, so
    none of its names holds a NUL byte: [cwd_ok]. *)
Record World : Type := {
  files : option node;
  cwd : path;
  calls : list call;
  sent : list (Response * list byte);
  requests : gmap nat Request;
  cwd_ok : existsb has_nul cwd = false
}.

Definition set_files (fs : option node) (w : World) : World :=
  {| files := fs; cwd := cwd w; calls := calls w; sent := sent w;
     requests := requests w; cwd_ok := cwd_ok w |}.

Definition add_call (c : call) (w : World) : World :=
  {| files := files w; cwd := cwd w; calls := calls w ++ [c]; sent := sent w;
     requests := requests w; cwd_ok := cwd_ok w |}.

Definition add_sent (r : Response) (c : list byte) (w : World) : World :=
  {| files := files w; cwd := cwd w; calls := calls w; sent := sent w ++ [(r, c)];
     requests := requests w; cwd_ok := cwd_ok w |}.

(** The request of a connection; a connection the world says nothing about
    carries a plain GET. *)
Definition request_of (w : World) (r : Response) : Request :=
  default plain_get (requests w !! connection r).

(** How a promise settles. *)
Inductive outcome (A : Type) : Type :=
  | Resolved (a : A)
  | Rejected (e : jserror).
Arguments Resolved {A} a.
Arguments Rejected {A} e.

Definition Async (A : Type) : Type := World -> outcome A * World.

#[global] Instance Async_ret : MRet Async := fun A a w => (Resolved a, w).

#[global] Instance Async_bind : MBind Async := fun A B k m w =>
  match m w with
  | (Resolved a, w') => k a w'
  | (Rejected e, w') => (Rejected e, w')
  end.

(** [throw e] *)
Definition throw {A : Type} (e : jserror) : Async A := fun w => (Rejected e, w).

(** [try { m } catch (error) { handler error }] *)
Definition try_catch {A : Type} (m : Async A) (handler : jserror -> Async A) : Async A :=
  fun w =>
    match m w with
    | (Resolved a, w') => (Resolved a, w')
    | (Rejected e, w') => handler e w'
    end.

(** [if (c) { await m }] *)
Definition when (c : bool) (m : Async unit) : Async unit :=
  if c then m else mret tt.

(** ** The platform: [fs.promises] and [response.download] *)

Definition errno_name (e : errno) : string :=
  match e with
  | ENOENT => "ENOENT"
  | ENOTDIR => "ENOTDIR"
  | EISDIR => "EISDIR"
  | EEXIST => "EEXIST"
  | ENAMETOOLONG => "ENAMETOOLONG"
  end.

Definition errno_text (e : errno) : string :=
  match e with
  | ENOENT => "no such file or directory"
  | ENOTDIR => "not a directory"
  | EISDIR => "illegal operation on a directory"
  | EEXIST => "file already exists"
  | ENAMETOOLONG => "name too long"
  end.

(** The error a failed system call rejects with; its [code] is the name of
    the errno. *)
Definition system_error (e : errno) (syscall : string) (p : path) : jserror :=
  Error (errno_name e +:+ ": " +:+ errno_text e +:+ ", " +:+ syscall +:+ " '" +:+ path_show p +:+ "'")
        (Some (errno_name e)).

(** The [TypeError] with which Node refuses a path that holds a NUL byte,
    before any system call. *)
Definition invalid_path_error (p : path) : jserror :=
  Error ("The argument 'path' must be a string, Uint8Array, or URL without null bytes. Received '"
         +:+ path_show p +:+ "'")
        (Some "ERR_INVALID_ARG_VALUE").

Definition refusal_error (r : refusal) (syscall : string) (p : path) : jserror :=
  match r with
  | NulByte => invalid_path_error p
  | NameTooLong => system_error ENAMETOOLONG syscall p
  end.

Definition fault_error (f : fault) (syscall : string) (p : path) : jserror :=
  match f with
  | Sys e => system_error e syscall p
  | Refusal r => refusal_error r syscall p
  end.

(** Data handed to [writeFile] and returned by [readFile]: a string, kept as
    the bytes of its UTF-8 text, or a [Buffer]. *)
Inductive Data : Type :=
  | DString (s : string)
  | DBuffer (b : list byte).

Definition data_bytes (d : Data) : list byte :=
  match d with
  | DString s => list_byte_of_string s
  | DBuffer b => b
  end.

Inductive Encoding : Type := utf8.

(** [lo <= b <= hi] *)
Definition in_range (lo hi : N) (b : byte) : bool :=
  (lo <=? Byte.to_N b)%N && (Byte.to_N b <=? hi)%N.

(** A continuation byte. *)
Definition continuation (b : byte) : bool := in_range 128 191 b.

(** The bounds of the byte that follows the lead byte [b] of a sequence of
    three bytes, and of four: they exclude overlong forms, surrogates and
    code points above U+10FFFF. *)
Definition second_low3 (b : byte) : N := if in_range 224 224 b then 160%N else 128%N.
Definition second_high3 (b : byte) : N := if in_range 237 237 b then 159%N else 191%N.
Definition second_low4 (b : byte) : N := if in_range 240 240 b then 144%N else 128%N.
Definition second_high4 (b : byte) : N := if in_range 244 244 b then 143%N else 191%N.

(** U+FFFD in UTF-8. *)
Definition replacement : list byte := [xef; xbf; xbd].

(** The text that decoding bytes as UTF-8 gives, as UTF-8 again: every
    well-formed sequence is kept, and every maximal ill-formed run of a
    sequence is replaced by U+FFFD, the decoding going on at the byte that
    broke the sequence. *)
Fixpoint utf8_decode (l : list byte) : list byte :=
  match l with
  | [] => []
  | b :: rest =>
      if in_range 0 127 b then b :: utf8_decode rest
      else if in_range 194 223 b then
        match rest with
        | c1 :: r1 =>
            if continuation c1 then b :: c1 :: utf8_decode r1
            else replacement ++ utf8_decode rest
        | [] => replacement
        end
      else if in_range 224 239 b then
        match rest with
        | c1 :: r1 =>
            if in_range (second_low3 b) (second_high3 b) c1 then
              match r1 with
              | c2 :: r2 =>
                  if continuation c2 then b :: c1 :: c2 :: utf8_decode r2
                  else replacement ++ utf8_decode r1
              | [] => replacement
              end
            else replacement ++ utf8_decode rest
        | [] => replacement
        end
      else if in_range 240 244 b then
        match rest with
        | c1 :: r1 =>
            if in_range (second_low4 b) (second_high4 b) c1 then
              match r1 with
              | c2 :: r2 =>
                  if continuation c2 then
                    match r2 with
                    | c3 :: r3 =>
                        if continuation c3 then b :: c1 :: c2 :: c3 :: utf8_decode r3
                        else replacement ++ utf8_decode r2
                    | [] => replacement
                    end
                  else replacement ++ utf8_decode r1
              | [] => replacement
              end
            else replacement ++ utf8_decode rest
        | [] => replacement
        end
      else replacement ++ utf8_decode rest
  end.


(** With an encoding [readFile] gives a string, the bytes decoded as UTF-8
    (ill-formed sequences replaced by U+FFFD); without one a [Buffer], the
    bytes as they are. *)
Definition decode (enc : option Encoding) (c : list byte) : Data :=
  match enc with
  | Some utf8 => DString (string_of_list_byte (utf8_decode c))
  | None => DBuffer c
  end.

(** A string is written in the given encoding, [utf8] when there is none; a
    [Buffer] is written as it is. *)
Definition encode (enc : option Encoding) (d : Data) : list byte :=
  match d with
  | DString s =>
      match enc with
      | Some utf8 | None => list_byte_of_string s
      end
  | DBuffer b => b
  end.

(** The [TypeError] of a [writeFile] whose data is [null]. *)
Definition invalid_data_error : jserror :=
  Error ("The " +:+ String (Ascii.ascii_of_nat 34) "data" +:+ String (Ascii.ascii_of_nat 34)
         " argument must be of type string or an instance of Buffer, TypedArray, or DataView. Received null")
        (Some "ERR_INVALID_ARG_TYPE").

Module fs.

(** Every call takes its path through Node's validation first: a path with
    a NUL byte is refused there, whatever the tree holds. *)

(** [fs.access(p, fs.constants.F_OK)] *)
Definition access (p : path) : Async unit := fun w =>
  let w := add_call (Access p) w in
  if existsb has_nul p then (Rejected (invalid_path_error p), w)
  else
    match stat (files w) p with
    | Found _ => (Resolved tt, w)
    | NotFound => (Rejected (system_error ENOENT "access" p), w)
    | NotDir => (Rejected (system_error ENOTDIR "access" p), w)
    | Refused r => (Rejected (refusal_error r "access" p), w)
    end.

(** [fs.mkdir(p, { recursive })].  A recursive call creates the missing
    directories from the top, and a name that is too long is refused once
    the directories above it have been created. *)
Definition mkdir (p : path) (recursive : bool) : Async unit := fun w =>
  let w := add_call (Mkdir p) w in
  if existsb has_nul p then (Rejected (invalid_path_error p), w)
  else
    match stat (files w) p with
    | Found (Dir _) =>
        if recursive then (Resolved tt, w)
        else (Rejected (system_error EEXIST "mkdir" p), w)
    | Found (File _) => (Rejected (system_error EEXIST "mkdir" p), w)
    | NotDir => (Rejected (system_error ENOTDIR "mkdir" p), w)
    | Refused r => (Rejected (refusal_error r "mkdir" p), w)
    | NotFound =>
        if recursive then
          match path_refusal p with
          | None => (Resolved tt, set_files (mkdirp p (files w)) w)
          | Some r =>
              (Rejected (refusal_error r "mkdir" p),
               set_files (mkdirp (accepted_prefix p) (files w)) w)
          end
        else
          match stat (files w) (path_dirname p) with
          | Found (Dir _) =>
              match path_refusal p with
              | None => (Resolved tt, set_files (mkdirp p (files w)) w)
              | Some r => (Rejected (refusal_error r "mkdir" p), w)
              end
          | Found (File _) => (Rejected (system_error ENOTDIR "mkdir" p), w)
          | _ => (Rejected (system_error ENOENT "mkdir" p), w)
          end
    end.

(** [fs.readFile(p, encoding)] *)
Definition readFile (p : path) (encoding : option Encoding) : Async Data := fun w =>
  let w := add_call (ReadFile p) w in
  if existsb has_nul p then (Rejected (invalid_path_error p), w)
  else
    match stat (files w) p with
    | Found (File c) => (Resolved (decode encoding c), w)
    | Found (Dir _) => (Rejected (system_error EISDIR "read" p), w)
    | NotFound => (Rejected (system_error ENOENT "open" p), w)
    | NotDir => (Rejected (system_error ENOTDIR "open" p), w)
    | Refused r => (Rejected (refusal_error r "open" p), w)
    end.

(** [fs.writeFile(p, data, encoding)]; [data] is [None] for [null], which
    is refused first of all, before the path is looked at. *)
Definition writeFile (p : path) (data : option Data) (encoding : option Encoding) : Async unit :=
  fun w =>
    let w := add_call (WriteFile p) w in
    match data with
    | None =>
        (Rejected invalid_data_error, w)
    | Some d =>
        if existsb has_nul p then (Rejected (invalid_path_error p), w)
        else
          match write_at p (encode encoding d) (files w) with
          | inl e => (Rejected (fault_error e "open" p), w)
          | inr fs' => (Resolved tt, set_files fs' w)
          end
    end.

(** [fs.unlink(p)] *)
Definition unlink (p : path) : Async unit := fun w =>
  let w := add_call (Unlink p) w in
  if existsb has_nul p then (Rejected (invalid_path_error p), w)
  else
    match stat (files w) p with
    | Found (File _) => (Resolved tt, set_files (remove_at p (files w)) w)
    | Found (Dir _) => (Rejected (system_error EISDIR "unlink" p), w)
    | NotFound => (Rejected (system_error ENOENT "unlink" p), w)
    | NotDir => (Rejected (system_error ENOTDIR "unlink" p), w)
    | Refused r => (Rejected (refusal_error r "unlink" p), w)
    end.

(** [fs.rm(p, { recursive, force })]; [force] covers a missing path and
    nothing else. *)
Definition rm (p : path) (recursive force : bool) : Async unit := fun w =>
  let w := add_call (Rm p) w in
  if existsb has_nul p then (Rejected (invalid_path_error p), w)
  else
    match stat (files w) p with
    | Found (File _) => (Resolved tt, set_files (remove_at p (files w)) w)
    | Found (Dir _) =>
        if recursive then (Resolved tt, set_files (remove_at p (files w)) w)
        else (Rejected (system_error EISDIR "rm" p), w)
    | NotFound =>
        if force then (Resolved tt, w)
        else (Rejected (system_error ENOENT "rm" p), w)
    | NotDir => (Rejected (system_error ENOTDIR "rm" p), w)
    | Refused r => (Rejected (refusal_error r "rm" p), w)
    end.

End fs.

(** An error of the HTTP layer: a status message and no [code]. *)
Definition http_error (message : string) : jserror := Error message None.

(** A name that starts with a dot (and is more than the dot). *)
Definition is_dotfile (x : string) : bool :=
  match x with
  | String c (String _ _) => Ascii.eqb c "."%char
  | _ => false
  end.

(** The bytes [first..last] that a range asks of a file of [size] bytes;
    [None] when no byte of the file is in the range. *)
Definition byte_range (size : nat) (s : RangeSpec) : option (nat * nat) :=
  match s with
  | Bytes first last =>
      if Nat.ltb 0 size && Nat.leb first (Nat.min last (size - 1))
      then Some (first, Nat.min last (size - 1)) else None
  | BytesFrom first =>
      if Nat.ltb first size then Some (first, size - 1) else None
  | LastBytes n =>
      if Nat.ltb 0 n && Nat.leb n size then Some (size - n, size - 1) else None
  end.

(** How a request for an existing regular file is served. *)
Inductive served : Type :=
  | Streamed (part : list byte)
  | NoBody
  | Failed (e : jserror).

(** What the file server does with the content [c] of the file: a failed
    precondition is answered 412 and a range outside the file 416, both as
    errors; a file that is not modified (304) and a HEAD request get no
    body; a range gets its bytes, anything else the whole file. *)
Definition serve (req : Request) (c : list byte) : served :=
  match validation req with
  | PreconditionFailed => Failed (http_error "Precondition Failed")
  | NotModified => NoBody
  | Unconditional =>
      match range req with
      | Some s =>
          match byte_range (length c) s with
          | None => Failed (http_error "Range Not Satisfiable")
          | Some (first, last) =>
              match method req with
              | HEAD => NoBody
              | GET => Streamed (take (last - first + 1) (drop first c))
              end
          end
      | None =>
          match method req with
          | HEAD => NoBody
          | GET => Streamed c
          end
      end
  end.

(** [response.download(p, callback)]: hands the file at [p] to the file
    server of the response; the result is the error handed to the callback,
    if any.  A path with a NUL byte is answered 400 and a file whose name
    starts with a dot 404, both before the file is looked at.  (This is the
    file server of Express 4; the one of Express 5 also hides what lies
    below a directory whose name starts with a dot.) *)
Definition response_download (r : Response) (p : path) (w : World) : option jserror * World :=
  let w := add_call (Download r p) w in
  if existsb has_nul p then (Some (http_error "Bad Request"), w)
  else if is_dotfile (List.last p EmptyString) then (Some (http_error "Not Found"), w)
  else
    match stat (files w) p with
    | Found (File c) =>
        match serve (request_of w r) c with
        | Streamed part => (None, add_sent r part w)
        | NoBody => (None, w)
        | Failed e => (Some e, w)
        end
    | Found (Dir _) => (Some (Error "EISDIR, read" (Some "EISDIR")), w)
    | NotFound => (Some (system_error ENOENT "stat" p), w)
    | NotDir => (Some (system_error ENOTDIR "stat" p), w)
    | Refused NulByte => (Some (http_error "Bad Request"), w)
    | Refused NameTooLong => (Some (system_error ENAMETOOLONG "stat" p), w)
    end.

(** ** The program: class [FileUtils] *)

(** [config.options]; a missing flag is [false]. *)
Record Options : Type := {
  ensureExists : bool;
  mkdir : bool;
  binary : bool
}.

(** The default [options = {}]. *)
Definition no_options : Options :=
  {| ensureExists := false; mkdir := false; binary := false |}.

(** The argument of [performOperation]; [data] and [response] are [None]
    for their default [null]. *)
Record Config : Type := {
  operation : string;
  filePath : string;
  options : Options;
  data : option Data;
  response : option Response
}.

(** What the promise of [performOperation] resolves to: a string or
    [Buffer], or [undefined]. *)
Inductive value : Type :=
  | Undefined
  | Returned (d : Data).

(** [l.includes(x)] *)
Definition includes (l : list string) (x : string) : bool :=
  existsb (String.eqb x) l.

(** [path.resolve(filePath)], which reads the working directory. *)
Definition resolve (filePath : string) : Async path :=
  fun w => (Resolved (path_resolve (cwd w) filePath), w).

Module FileUtils.

Definition ensureFileExists (filePath : path) : Async unit :=
  try_catch
    (fs.access filePath)
    (fun error => throw (FileUtilsError error "ensureExists" (path_show filePath))).

Definition deleteFolder (folderPath : path) : Async unit :=
  try_catch
    (fs.rm folderPath true true)
    (fun error => throw (FileUtilsError error "deleteFolder" (path_show folderPath))).

Definition downloadFile (response : Response) (filePath : string) : Async unit :=
  fun w =>
    let fullPath := path_resolve (cwd w) filePath in
    match response_download response fullPath w with
    | (Some error, w') => (Rejected (FileUtilsError error "download" filePath), w')
    | (None, w') => (Resolved tt, w')
    end.

Definition ensureExistsAndDelete (fullPath : path) (isFolder : bool) : Async unit :=
  try_catch
    (fs.access fullPath)
    (fun error =>
       throw (FileUtilsError error (if isFolder then "deleteFolder" else "delete")
                             (path_show fullPath)));;
  if isFolder then fs.rm fullPath true true else fs.unlink fullPath.

(** The [switch (operation)] of [performOperation]. *)
Definition dispatch (config : Config) (fullPath : path) : Async value :=
  if String.eqb (operation config) "read" then
    let encoding := if binary (options config) then None else Some utf8 in
    d ← fs.readFile fullPath encoding;
    mret (Returned d)
  else if String.eqb (operation config) "write" then
    fs.writeFile fullPath (data config)
                 (if binary (options config) then None else Some utf8);;
    mret (Returned (DString "File written successfully"))
  else if String.eqb (operation config) "download" then
    match response config with
    | None => throw (Error "Response object is required for download" None)
    | Some r => downloadFile r (filePath config);; mret Undefined
    end
  else if String.eqb (operation config) "delete" then
    ensureExistsAndDelete fullPath false;;
    fs.unlink fullPath;;
    mret (Returned (DString "File deleted successfully"))
  else if String.eqb (operation config) "deleteFolder" then
    ensureExistsAndDelete fullPath true;;
    deleteFolder fullPath;;
    mret (Returned (DString "Folder deleted successfully"))
  else
    throw (Error "Invalid file operation" None).

Definition performOperation (config : Config) : Async value :=
  try_catch
    (fullPath ← resolve (filePath config);
     when (ensureExists (options config)
           && includes ["read"; "download"] (operation config))
          (ensureFileExists fullPath);;
     when (mkdir (options config) && includes ["write"] (operation config))
          (fs.mkdir (path_dirname fullPath) true);;
     dispatch config fullPath)
    (fun error => throw (FileUtilsError error (operation config) (filePath config))).

End FileUtils.

(** ** A sample world *)

Definition bytes_hello : list byte := list_byte_of_string "hello".

(** [/home/app] holds [notes.txt] and a directory [data] with a file and a
    nested directory; the process runs in [/home/app]. *)
Definition sample_tree : node :=
  Dir {[ "home" :=
    Dir {[ "app" :=
      Dir (<[ "notes.txt" := File bytes_hello ]>
           {[ "data" :=
              Dir (<[ "x.bin" := File [x00; xff] ]>
                   {[ "sub" := Dir {[ "y.txt" := File bytes_hello ]} ]}) ]}) ]} ]}.

Definition sample_world : World :=
  {| files := Some sample_tree; cwd := ["home"; "app"]; calls := []; sent := [];
     requests := ∅; cwd_ok := eq_refl |}.

Definition request (op p : string) : Config :=
  {| operation := op; filePath := p; options := no_options; data := None; response := None |}.

(** A read of a missing file that asks for the existence check. *)
Definition read_missing_checked : Config :=
  {| operation := "read"; filePath := "missing.txt";
     options := {| ensureExists := true; mkdir := false; binary := false |};
     data := None; response := None |}.

(** A download of a missing file that asks for the existence check and
    brings no response. *)
Definition download_missing_checked : Config :=
  {| operation := "download"; filePath := "missing.zip";
     options := {| ensureExists := true; mkdir := false; binary := false |};
     data := None; response := None |}.

(** ** How often an error went through the normalizer *)

(** The number of [FileUtilsError] layers around the raw error. *)
Fixpoint layers (e : jserror) : nat :=
  match e with
  | Error _ _ => 0
  | MkFileUtilsError _ _ _ o => S (layers o)
  end.

(** The operation names with which the helpers of [FileUtils] tag the errors
    they raise. *)
Definition helper_tags : list string :=
  ["ensureExists"; "delete"; "deleteFolder"; "download"].

(** An error that a helper built: a raw error, normalized once, under one of
    the helper tags. *)
Definition helper_error (e : jserror) : bool :=
  match e with
  | Error _ _ => false
  | MkFileUtilsError m op _ raw =>
      is_raw raw && String.eqb m (formatErrorMessage raw) && includes helper_tags op
  end.

(** What reaches the top-level [catch]: a raw error or a helper's error. *)
Definition raw_or_helper_error (e : jserror) : bool :=
  is_raw e || helper_error e.

(** Every error with which [m] rejects satisfies [P]. *)
Definition raises {A : Type} (P : jserror -> bool) (m : Async A) : Prop :=
  forall w e w', m w = (Rejected e, w') -> P e = true.

(** The raw error at the bottom of the [originalError] chain. *)
Fixpoint root_cause (e : jserror) : jserror :=
  match e with
  | Error _ _ => e
  | MkFileUtilsError _ _ _ o => root_cause o
  end.

(** [m] leaves the part [f] of the world as it was, however it settles. *)
Definition preserves {A X : Type} (f : World -> X) (m : Async A) : Prop :=
  forall w o w', m w = (o, w') -> f w' = f w.

(** ** The web server: the two routes of [index.js] *)

(** What a handler passes to [console.error]. *)
Inductive console_arg : Type :=
  | Text (s : string)
  | ErrorObject (e : jserror).

(** What [res.status(code).send(obj)] answers: the status and the fields of
    the JSON body; [res.send(obj)] alone answers with status 200. *)
Record HttpReply : Type := {
  status : nat;
  body : list (string * string)
}.

(** What a route handler did once its promise chain settled: the JSON reply
    it sent, if any, and its calls of [console.error]. *)
Record Handled : Type := {
  replied : option HttpReply;
  logged : list (list console_arg)
}.

(** The [.catch(error => ...)] handler, the same in both routes. *)
Definition route_catch (error : jserror) : Handled :=
  match error with
  | MkFileUtilsError message operation filePath _ =>
      {| replied := Some {| status := 500;
                            body := [("error", message); ("operation", operation);
                                     ("filePath", filePath)] |};
         logged := [[Text "FileUtilsError:"; Text message]] |}
  | Error _ _ =>
      {| replied := Some {| status := 500;
                            body := [("error", "An unexpected error occurred")] |};
         logged := [[Text "Error:"; ErrorObject error]] |}
  end.

(** [app.get('/download-file', (req, res) => ...)] *)
Definition download_file_route (res : Response) (w : World) : Handled * World :=
  let filePath := "path/to/file.zip" in
  match FileUtils.performOperation
          {| operation := "download"; filePath := filePath; options := no_options;
             data := None; response := Some res |} w with
  | (Resolved _, w') => ({| replied := None; logged := [] |}, w')
  | (Rejected error, w') => (route_catch error, w')
  end.

(** [app.delete('/delete-folder', (req, res) => ...)] *)
Definition delete_folder_route (res : Response) (w : World) : Handled * World :=
  let folderPath := "path/to/folder" in
  match FileUtils.performOperation
          {| operation := "deleteFolder"; filePath := folderPath; options := no_options;
             data := None; response := None |} w with
  | (Resolved _, w') =>
      ({| replied := Some {| status := 200;
                             body := [("message", "Folder deleted successfully")] |};
          logged := [] |}, w')
  | (Rejected error, w') => (route_catch error, w')
  end.

(** A server that runs in [/srv] and has both [path/to/file.zip] and
    [path/to/folder]. *)
Definition server_world : World :=
  {| files := Some (Dir {[ "srv" :=
       Dir {[ "path" :=
         Dir {[ "to" :=
           Dir (<[ "file.zip" := File [x50; x4b] ]>
                {[ "folder" := Dir {[ "a.txt" := File bytes_hello ]} ]}) ]} ]} ]});
     cwd := ["srv"]; calls := []; sent := []; requests := ∅; cwd_ok := eq_refl |}.


(** ** Facts about the file tree *)

Section Tree.

Implicit Types (o : option node) (p q : path) (c : list byte).

Lemma stat_None p : stat None p = NotFound.
Proof. by destruct p. Qed.

Lemma stat_nil o : stat o [] = match o with Some n => Found n | None => NotFound end.
Proof. by destruct o. Qed.

(** A name that is not refused. *)
Lemma name_refusal_None x :
  name_refusal x = None <-> has_nul x = false /\ too_long x = false.
Proof. unfold name_refusal. destruct (has_nul x), (too_long x); intuition congruence. Qed.

Lemma stat_cons_dir (ch : gmap string node) x q :
  name_refusal x = None ->
  stat (Some (Dir ch)) (x :: q) = stat (ch !! x) q.
Proof. intros [Hn Hl]%name_refusal_None. simpl. by rewrite Hn, Hl. Qed.

(** A path that leads to a node leads through directories only, under
    names that are not refused. *)
Lemma stat_found_inv o x q n :
  stat o (x :: q) = Found n ->
  exists ch, o = Some (Dir ch) /\ name_refusal x = None /\ stat (ch !! x) q = Found n.
Proof.
  destruct o as [[c|ch]|]; simpl; try discriminate.
  - by destruct (has_nul x).
  - destruct (has_nul x) eqn:Hn; [discriminate|].
    destruct (too_long x) eqn:Hl; [discriminate|].
    intros H. exists ch. split; [done|]. split; [|done].
    by apply name_refusal_None.
Qed.

(** The lookup of a path that is not found stopped at a missing name. *)
Lemma stat_not_found_inv o x q :
  stat o (x :: q) = NotFound ->
  o = None \/
  exists ch, o = Some (Dir ch) /\ name_refusal x = None /\ stat (ch !! x) q = NotFound.
Proof.
  destruct o as [[c|ch]|]; simpl; [| |by left].
  - by destruct (has_nul x).
  - destruct (has_nul x) eqn:Hn; [discriminate|].
    destruct (too_long x) eqn:Hl; [discriminate|].
    intros H. right. exists ch. split; [done|]. split; [|done].
    by apply name_refusal_None.
Qed.

Lemma stat_app_found o p q n :
  stat o (p ++ q) = Found n ->
  exists m, stat o p = Found m /\ stat (Some m) q = Found n.
Proof.
  revert o. induction p as [|x p IH]; intros o H.
  - simpl in *. destruct o as [m|].
    + by exists m.
    + by rewrite stat_None in H.
  - simpl app in H. apply stat_found_inv in H as (ch & -> & Hx & H).
    rewrite stat_cons_dir by done. by apply IH.
Qed.

(** Every proper ancestor of an existing path is a directory. *)
Lemma stat_ancestor_dir o p x q n :
  stat o (p ++ x :: q) = Found n ->
  exists ch, stat o p = Found (Dir ch).
Proof.
  intros H. apply stat_app_found in H as (m & Hm & H).
  apply stat_found_inv in H as (ch & [= ->] & _). by exists ch.
Qed.

(** Below a missing path everything is missing. *)
Lemma stat_app_not_found o p q :
  stat o p = NotFound -> stat o (p ++ q) = NotFound.
Proof.
  revert o. induction p as [|x p IH]; intros o H.
  - destruct o; [done|]. apply stat_None.
  - apply stat_not_found_inv in H as [->|(ch & -> & Hx & H)]; [done|].
    simpl app. rewrite stat_cons_dir by done. by apply IH.
Qed.

(** Below an existing node, the lookup goes on from that node. *)
Lemma stat_app o p q n :
  stat o p = Found n -> stat o (p ++ q) = stat (Some n) q.
Proof.
  revert o. induction p as [|x p IH]; intros o H.
  - destruct o as [m|]; simpl in H; [|done]. by injection H as ->.
  - apply stat_found_inv in H as (ch & -> & Hx & H). simpl app.
    rewrite stat_cons_dir by done. by apply IH.
Qed.

(** The names of an existing path are not refused. *)
Lemma stat_found_names o p n :
  stat o p = Found n -> path_refusal p = None.
Proof.
  revert o. induction p as [|x p IH]; intros o H; [done|].
  apply stat_found_inv in H as (ch & -> & Hx & H). simpl. rewrite Hx. by eapply IH.
Qed.

Lemma path_refusal_no_nul p : path_refusal p = None -> existsb has_nul p = false.
Proof.
  induction p as [|x p IH]; [done|]. simpl.
  destruct (name_refusal x) eqn:Hx; [discriminate|].
  apply name_refusal_None in Hx as [-> _]. apply IH.
Qed.

(** No name of an existing path holds a NUL byte. *)
Lemma stat_found_no_nul o p n : stat o p = Found n -> existsb has_nul p = false.
Proof. intros H. by eapply path_refusal_no_nul, stat_found_names. Qed.

Lemma stat_alter_at f o p n :
  stat o p = Found n ->
  stat (alter_at f p o) p = stat (f (Some n)) [].
Proof.
  revert o. induction p as [|x p IH]; intros o H.
  - destruct o as [m|]; simpl in H; [|done]. by injection H as ->.
  - apply stat_found_inv in H as (ch & -> & Hx & H).
    simpl alter_at. rewrite stat_cons_dir by done.
    rewrite lookup_partial_alter_eq. by apply IH.
Qed.

(** After a removal the path is not found. *)
Lemma stat_remove_at o p n :
  stat o p = Found n -> stat (remove_at p o) p = NotFound.
Proof. intros H. unfold remove_at. by rewrite (stat_alter_at _ _ _ _ H). Qed.

(** ... and neither is anything below it. *)
Lemma stat_remove_at_below o p q n :
  stat o p = Found n -> stat (remove_at p o) (p ++ q) = NotFound.
Proof. intros H. apply stat_app_not_found. by eapply stat_remove_at. Qed.

(** A removal leaves alone what is neither at, below nor above the path. *)
Lemma stat_remove_at_other o p q :
  ~ p `prefix_of` q -> ~ q `prefix_of` p ->
  stat (remove_at p o) q = stat o q.
Proof.
  unfold remove_at. revert o q. induction p as [|x p IH]; intros o q Hpq Hqp.
  - destruct Hpq. apply prefix_nil.
  - destruct q as [|y q]; [destruct Hqp; apply prefix_nil|].
    destruct o as [[c|ch]|]; simpl; try done.
    destruct (has_nul y); [done|]. destruct (too_long y); [done|].
    destruct (decide (x = y)) as [->|Hxy].
    + rewrite lookup_partial_alter_eq. apply IH.
      * intros Hp. apply Hpq. by apply prefix_cons.
      * intros Hq. apply Hqp. by apply prefix_cons.
    + by rewrite lookup_partial_alter_ne.
Qed.

(** Creating the missing directories of a path whose names are not refused
    makes it an (empty) directory. *)
Lemma stat_mkdirp o p :
  path_refusal p = None ->
  stat o p = NotFound -> stat (mkdirp p o) p = Found (Dir ∅).
Proof.
  revert o. induction p as [|x p IH]; intros o Hp H.
  - by destruct o.
  - simpl in Hp. destruct (name_refusal x) eqn:Hx; [discriminate|].
    apply stat_not_found_inv in H as [->|(ch & -> & _ & H)].
    + simpl mkdirp. rewrite stat_cons_dir by done.
      rewrite lookup_partial_alter_eq. apply IH; [done|].
      rewrite lookup_empty. apply stat_None.
    + simpl mkdirp. rewrite stat_cons_dir by done.
      rewrite lookup_partial_alter_eq. by apply IH.
Qed.


(** A successful write leaves a regular file with the written bytes. *)
Lemma stat_put_file o o' p c :
  put_file p c o = inr o' -> stat o' p = Found (File c).
Proof.
  revert o o'. induction p as [|x p IH]; intros o o' H.
  - destruct o as [[c'|ch]|]; simpl in H; try discriminate; by injection H as <-.
  - destruct o as [[c'|ch]|]; simpl in H; try discriminate.
    + by destruct (has_nul x).
    + destruct (has_nul x) eqn:Hn; [discriminate|].
      destruct (too_long x) eqn:Hl; [discriminate|].
      destruct (put_file p c (ch !! x)) as [e|o1] eqn:E; [discriminate|].
      injection H as <-. simpl. rewrite Hn, Hl, lookup_partial_alter_eq. by eapply IH.
Qed.

Lemma stat_write_at o o' p c :
  write_at p c o = inr o' -> stat o' p = Found (File c).
Proof.
  unfold write_at. destruct p, o; try discriminate; apply stat_put_file.
Qed.



End Tree.

(** ** The model at work *)

Example resolve_relative :
  path_show (path_resolve ["home"; "app"] "../x//y/./z/") = "/home/x/y/z".
Proof. reflexivity. Qed.

Example resolve_absolute :
  path_resolve ["home"; "app"] "/etc/../../var/log" = ["var"; "log"].
Proof. reflexivity. Qed.

Example read_notes :
  fst (FileUtils.performOperation (request "read" "notes.txt") sample_world)
  = Resolved (Returned (DString "hello")).
Proof. reflexivity. Qed.

Example read_directory :
  fst (FileUtils.performOperation (request "read" "data") sample_world)
  = Rejected (FileUtilsError (system_error EISDIR "read" ["home"; "app"; "data"])
                             "read" "data")
  /\ formatErrorMessage (system_error EISDIR "read" ["home"; "app"; "data"])
     = "Is a directory, not a file".
Proof. split; reflexivity. Qed.

Example write_without_parent :
  fst (FileUtils.performOperation
         {| operation := "write"; filePath := "a/b/c.txt"; options := no_options;
            data := Some (DString "hi"); response := None |} sample_world)
  = Rejected (FileUtilsError
                (system_error ENOENT "open" ["home"; "app"; "a"; "b"; "c.txt"])
                "write" "a/b/c.txt").
Proof. reflexivity. Qed.

Example download_notes :
  FileUtils.performOperation
    {| operation := "download"; filePath := "notes.txt"; options := no_options;
       data := None; response := Some {| connection := 7 |} |} sample_world
  = (Resolved Undefined,
     add_sent {| connection := 7 |} bytes_hello
       (add_call (Download {| connection := 7 |} ["home"; "app"; "notes.txt"])
          sample_world)).
Proof. reflexivity. Qed.

(** ** How the platform calls settle *)

Section Platform.

Implicit Types (w : World) (p : path).

Lemma access_found w p n :
  stat (files w) p = Found n ->
  fs.access p w = (Resolved tt, add_call (Access p) w).
Proof.
  intros H. unfold fs.access. simpl. by rewrite (stat_found_no_nul _ _ _ H), H.
Qed.

Lemma access_not_found w p :
  existsb has_nul p = false ->
  stat (files w) p = NotFound ->
  fs.access p w = (Rejected (system_error ENOENT "access" p), add_call (Access p) w).
Proof. intros Hn H. unfold fs.access. simpl. by rewrite Hn, H. Qed.

Lemma access_not_dir w p :
  existsb has_nul p = false ->
  stat (files w) p = NotDir ->
  fs.access p w = (Rejected (system_error ENOTDIR "access" p), add_call (Access p) w).
Proof. intros Hn H. unfold fs.access. simpl. by rewrite Hn, H. Qed.

(** On a path that does not lead to a node the check fails, with a raw
    error. *)
Lemma access_missing w p :
  exists_at (files w) p = false ->
  exists raw, is_raw raw = true /\
              fs.access p w = (Rejected raw, add_call (Access p) w).
Proof.
  unfold exists_at, fs.access. simpl. intros H.
  destruct (existsb has_nul p); [eexists; split; [|reflexivity]; done|].
  destruct (stat (files w) p) as [n| | |[]]; [discriminate|..];
    (eexists; split; [|reflexivity]; done).
Qed.

Lemma unlink_file w p c :
  stat (files w) p = Found (File c) ->
  fs.unlink p w = (Resolved tt, set_files (remove_at p (files w)) (add_call (Unlink p) w)).
Proof.
  intros H. unfold fs.unlink. simpl. by rewrite (stat_found_no_nul _ _ _ H), H.
Qed.

Lemma unlink_not_found w p :
  existsb has_nul p = false ->
  stat (files w) p = NotFound ->
  fs.unlink p w = (Rejected (system_error ENOENT "unlink" p), add_call (Unlink p) w).
Proof. intros Hn H. unfold fs.unlink. simpl. by rewrite Hn, H. Qed.

Lemma rm_found w p n :
  stat (files w) p = Found n ->
  fs.rm p true true w = (Resolved tt, set_files (remove_at p (files w)) (add_call (Rm p) w)).
Proof.
  intros H. unfold fs.rm. simpl. rewrite (stat_found_no_nul _ _ _ H), H. by destruct n.
Qed.

Lemma rm_not_found w p :
  existsb has_nul p = false ->
  stat (files w) p = NotFound ->
  fs.rm p true true w = (Resolved tt, add_call (Rm p) w).
Proof. intros Hn H. unfold fs.rm. simpl. by rewrite Hn, H. Qed.


Lemma readFile_not_found w p enc :
  existsb has_nul p = false ->
  stat (files w) p = NotFound ->
  fs.readFile p enc w = (Rejected (system_error ENOENT "open" p), add_call (ReadFile p) w).
Proof. intros Hn H. unfold fs.readFile. simpl. by rewrite Hn, H. Qed.

Lemma mkdir_not_found w p :
  path_refusal p = None ->
  stat (files w) p = NotFound ->
  fs.mkdir p true w = (Resolved tt, set_files (mkdirp p (files w)) (add_call (Mkdir p) w)).
Proof.
  intros Hp H. unfold fs.mkdir. simpl.
  by rewrite (path_refusal_no_nul _ Hp), H, Hp.
Qed.

(** The paths of the two routes: the working directory, which has no NUL
    byte, and three plain names. *)
Lemma route_folder_no_nul w :
  existsb has_nul (path_resolve (cwd w) "path/to/folder") = false.
Proof.
  unfold path_resolve. simpl.
  change (existsb has_nul (((cwd w ++ ["path"]) ++ ["to"]) ++ ["folder"]) = false).
  by rewrite !existsb_app, cwd_ok.
Qed.


(** A portable path has no refused name, nor has any part of it. *)
Lemma portable_path_refusal p : portable p = true -> path_refusal p = None.
Proof.
  unfold portable. intros [H _]%andb_prop. induction p as [|x p IH]; [done|].
  simpl in *. apply andb_prop in H as [Hx H]. apply bool_decide_eq_true in Hx.
  rewrite Hx. by apply IH.
Qed.

Lemma portable_no_nul p : portable p = true -> existsb has_nul p = false.
Proof. intros H. by apply path_refusal_no_nul, portable_path_refusal. Qed.

(** The walk refuses a path only for one of its names. *)
Lemma stat_refused_names (o : option node) p (r : refusal) :
  stat o p = Refused r -> path_refusal p <> None.
Proof.
  revert o. induction p as [|x p IH]; intros o H.
  - by destruct o.
  - destruct o as [[c|ch]|]; simpl in *; [| |done].
    + unfold name_refusal. by destruct (has_nul x).
    + unfold name_refusal. destruct (has_nul x); [done|].
      destruct (too_long x); [done|]. by eapply IH.
Qed.

Lemma portable_not_refused (o : option node) p (r : refusal) :
  portable p = true -> stat o p <> Refused r.
Proof.
  intros Hp H. by apply stat_refused_names in H; apply portable_path_refusal in Hp.
Qed.

Lemma path_refusal_app p q :
  path_refusal (p ++ q) = None -> path_refusal p = None /\ path_refusal q = None.
Proof.
  induction p as [|x p IH]; [done|]. simpl.
  destruct (name_refusal x); [discriminate|]. apply IH.
Qed.

Lemma path_refusal_last (x : string) : path_refusal [x] = None -> name_refusal x = None.
Proof. simpl. by destruct (name_refusal x). Qed.

(** The messages the normalizer gives to the errors of a missing path. *)
Lemma format_ENOENT syscall p :
  formatErrorMessage (system_error ENOENT syscall p) = "File not found".
Proof. done. Qed.

Lemma format_no_code m : formatErrorMessage (Error m None) = m.
Proof. done. Qed.

Lemma format_FileUtilsError (e : jserror) (op name : string) :
  formatErrorMessage (FileUtilsError e op name) = err_message (FileUtilsError e op name).
Proof. done. Qed.

End Platform.

Arguments fs.access : simpl never.
Arguments fs.mkdir : simpl never.
Arguments fs.readFile : simpl never.
Arguments fs.writeFile : simpl never.
Arguments fs.unlink : simpl never.
Arguments fs.rm : simpl never.
Arguments response_download : simpl never.
Arguments path_resolve : simpl never.
Arguments path_show : simpl never.
Arguments system_error : simpl never.
Arguments FileUtilsError : simpl never.

(** The steps the proofs below unfold. *)
Ltac unfold_async :=
  unfold FileUtils.performOperation, FileUtils.dispatch, FileUtils.ensureExistsAndDelete,
    FileUtils.ensureFileExists, FileUtils.deleteFolder, FileUtils.downloadFile,
    try_catch, when, resolve, throw, mbind, mret, Async_bind, Async_ret.

(** ** The error normalizer *)

(** C9. For every error [e], [formatErrorMessage] follows the fixed table on
    the system error code: [ENOENT] (not found) gives "File not found",
    [EACCES] (permission denied) "Permission denied", [ENOTDIR] (not a
    directory) "Not a directory", [EISDIR] (is a directory) "Is a directory,
    not a file"; with any other code, or none, the message of [e] is passed
    through unchanged. *)
Theorem formatErrorMessage_table (e : jserror) :
  (err_code e = Some "ENOENT" -> formatErrorMessage e = "File not found") /\
  (err_code e = Some "EACCES" -> formatErrorMessage e = "Permission denied") /\
  (err_code e = Some "ENOTDIR" -> formatErrorMessage e = "Not a directory") /\
  (err_code e = Some "EISDIR" -> formatErrorMessage e = "Is a directory, not a file") /\
  (err_code e ∉ [Some "ENOENT"; Some "EACCES"; Some "ENOTDIR"; Some "EISDIR"] ->
   formatErrorMessage e = err_message e).
Proof.
  unfold formatErrorMessage.
  repeat split; try (intros ->; reflexivity).
  intros H. destruct (err_code e) as [c|]; [|done].
  destruct (truthy c); [|done].
  repeat match goal with
  | |- context [String.eqb c ?s] =>
      destruct (String.eqb_spec c s) as [->|_]; [exfalso; apply H; set_solver|]
  end.
  done.
Qed.

Lemma formatErrorMessage_table_witness :
  formatErrorMessage (system_error EISDIR "read" ["home"]) = "Is a directory, not a file" /\
  formatErrorMessage (Error "too many open files" (Some "EMFILE")) = "too many open files".
Proof.
  split.
  - apply (formatErrorMessage_table (system_error EISDIR "read" ["home"])). reflexivity.
  - apply (formatErrorMessage_table (Error "too many open files" (Some "EMFILE"))).
    simpl. repeat (apply not_elem_of_cons; split; [discriminate|]).
    apply not_elem_of_nil.
Defined.

(** ** The dispatcher: operations that are not recognised *)

(** C8. For every operation name outside read, write, delete, deleteFolder
    and download, and every [filePath], in every world, [performOperation]
    rejects with a [FileUtilsError] whose message is exactly "Invalid file
    operation"; no platform call is made, so the path plays no part. *)
Theorem invalid_operation_rejected (cfg : Config) (w : World) :
  operation cfg ∉ ["read"; "write"; "delete"; "deleteFolder"; "download"] ->
  exists e,
    FileUtils.performOperation cfg w = (Rejected e, w) /\
    instanceof_FileUtilsError e = true /\
    err_message e = "Invalid file operation" /\
    err_operation e = Some (operation cfg) /\
    err_filePath e = Some (filePath cfg) /\
    err_originalError e = Some (Error "Invalid file operation" None).
Proof.
  intros H.
  apply not_elem_of_cons in H as [Hread H]. apply not_elem_of_cons in H as [Hwrite H].
  apply not_elem_of_cons in H as [Hdelete H]. apply not_elem_of_cons in H as [Hfolder H].
  apply not_elem_of_cons in H as [Hdownload _].
  exists (FileUtilsError (Error "Invalid file operation" None) (operation cfg) (filePath cfg)).
  split; [|done].
  apply String.eqb_neq in Hread, Hwrite, Hdelete, Hfolder, Hdownload.
  unfold_async. unfold includes. simpl.
  rewrite Hread, Hwrite, Hdelete, Hfolder, Hdownload.
  by rewrite !andb_false_r.
Qed.

Lemma invalid_operation_rejected_witness :
  exists e,
    FileUtils.performOperation (request "rename" "notes.txt") sample_world
    = (Rejected e, sample_world) /\
    instanceof_FileUtilsError e = true /\
    err_message e = "Invalid file operation" /\
    err_operation e = Some "rename" /\
    err_filePath e = Some "notes.txt" /\
    err_originalError e = Some (Error "Invalid file operation" None).
Proof.
  apply (invalid_operation_rejected (request "rename" "notes.txt") sample_world).
  simpl. repeat (apply not_elem_of_cons; split; [discriminate|]).
  apply not_elem_of_nil.
Defined.

(** ** The dispatcher: delete and deleteFolder *)




(** Where "does not exist" ends: a path that runs through a regular file is
    refused by the platform with [ENOTDIR], and the caller reads the
    "Not a directory" row of the table. *)
Lemma delete_path_through_file_rejected
    (w : World) (op p : string) (opts : Options) (d : option Data) (r : option Response) :
  op = "delete" \/ op = "deleteFolder" ->
  portable (path_resolve (cwd w) p) = true ->
  stat (files w) (path_resolve (cwd w) p) = NotDir ->
  exists e w',
    FileUtils.performOperation
      {| operation := op; filePath := p; options := opts; data := d; response := r |} w
    = (Rejected e, w') /\
    err_operation e = Some op /\
    err_message e = "Not a directory" /\
    files w' = files w.
Proof.
  intros Hop Hp%portable_no_nul Hstat.
  set (full := path_resolve (cwd w) p) in *.
  exists (FileUtilsError (FileUtilsError (system_error ENOTDIR "access" full) op (path_show full)) op p).
  exists (add_call (Access full) w).
  split; [|done].
  destruct Hop as [-> | ->]; unfold_async; simpl; rewrite !andb_false_r; fold full;
    by rewrite (access_not_dir _ _ Hp Hstat).
Qed.

(** C1 (the code departs from the claim). For every existing regular file,
    [performOperation] with operation "delete" removes the file and then
    rejects: [ensureExistsAndDelete] has already unlinked it when the
    dispatcher unlinks it a second time, and that second call fails with
    [ENOENT].  The caller gets "File not found", tagged "delete", although
    the file was there. *)
Theorem delete_existing_file_rejects
    (w : World) (p : string) (opts : Options) (d : option Data) (r : option Response)
    (c : list byte) :
  stat (files w) (path_resolve (cwd w) p) = Found (File c) ->
  exists w',
    FileUtils.performOperation
      {| operation := "delete"; filePath := p; options := opts; data := d; response := r |} w
    = (Rejected (FileUtilsError (system_error ENOENT "unlink" (path_resolve (cwd w) p))
                                "delete" p), w') /\
    files w' = remove_at (path_resolve (cwd w) p) (files w) /\
    stat (files w') (path_resolve (cwd w) p) = NotFound /\
    calls w' = calls w ++ [Access (path_resolve (cwd w) p);
                           Unlink (path_resolve (cwd w) p);
                           Unlink (path_resolve (cwd w) p)].
Proof.
  intros Hstat.
  set (full := path_resolve (cwd w) p) in *.
  pose proof (stat_found_no_nul _ _ _ Hstat) as Hnul.
  eexists. split.
  - unfold_async. simpl. rewrite !andb_false_r. fold full.
    rewrite (access_found _ _ _ Hstat).
    rewrite (unlink_file _ _ c) by done.
    rewrite (unlink_not_found _ _ Hnul) by (simpl; by eapply stat_remove_at).
    reflexivity.
  - simpl. repeat split.
    + by eapply stat_remove_at.
    + by rewrite <- !app_assoc.
Qed.

Lemma delete_existing_file_rejects_witness :
  exists w',
    FileUtils.performOperation (request "delete" "notes.txt") sample_world
    = (Rejected (FileUtilsError (system_error ENOENT "unlink" ["home"; "app"; "notes.txt"])
                                "delete" "notes.txt"), w') /\
    files w' = remove_at ["home"; "app"; "notes.txt"] (files sample_world) /\
    stat (files w') ["home"; "app"; "notes.txt"] = NotFound /\
    calls w' = [Access ["home"; "app"; "notes.txt"];
                Unlink ["home"; "app"; "notes.txt"];
                Unlink ["home"; "app"; "notes.txt"]].
Proof.
  apply (delete_existing_file_rejects sample_world "notes.txt" no_options None None
           bytes_hello).
  reflexivity.
Defined.

(** C6. For every existing directory (whatever it contains),
    [performOperation] with operation "deleteFolder" resolves with its
    success message after removing the whole tree rooted at the path:
    nothing at or below the path is left, what lies elsewhere is untouched,
    and an existence check on the path then fails.  The second removal that
    the dispatcher runs through [FileUtils.deleteFolder] meets a tree that is
    already gone and is tolerated. *)
Theorem deleteFolder_removes_tree
    (w : World) (p : string) (opts : Options) (d : option Data) (r : option Response)
    (ch : gmap string node) :
  stat (files w) (path_resolve (cwd w) p) = Found (Dir ch) ->
  exists w',
    FileUtils.performOperation
      {| operation := "deleteFolder"; filePath := p; options := opts; data := d;
         response := r |} w
    = (Resolved (Returned (DString "Folder deleted successfully")), w') /\
    files w' = remove_at (path_resolve (cwd w) p) (files w) /\
    (forall q, stat (files w') (path_resolve (cwd w) p ++ q) = NotFound) /\
    (forall q, ~ path_resolve (cwd w) p `prefix_of` q ->
               ~ q `prefix_of` path_resolve (cwd w) p ->
               stat (files w') q = stat (files w) q) /\
    (exists e w'', FileUtils.ensureFileExists (path_resolve (cwd w) p) w' = (Rejected e, w'')) /\
    (exists w'', FileUtils.deleteFolder (path_resolve (cwd w) p) w' = (Resolved tt, w'') /\
                 files w'' = files w').
Proof.
  intros Hstat.
  set (full := path_resolve (cwd w) p) in *.
  assert (Hgone : stat (remove_at full (files w)) full = NotFound)
    by (by eapply stat_remove_at).
  pose proof (stat_found_no_nul _ _ _ Hstat) as Hnul.
  eexists. split.
  - unfold_async. simpl. rewrite !andb_false_r. fold full.
    rewrite (access_found _ _ _ Hstat).
    rewrite (rm_found _ _ (Dir ch)) by done.
    rewrite (rm_not_found _ _ Hnul) by done.
    reflexivity.
  - simpl. split; [done|]. split; [|split; [|split]].
    + intros q. by eapply stat_remove_at_below.
    + intros q Hpq Hqp. by apply stat_remove_at_other.
    + unfold_async. rewrite (access_not_found _ _ Hnul) by done. eauto.
    + unfold_async. rewrite (rm_not_found _ _ Hnul) by done. eauto.
Qed.

Lemma deleteFolder_removes_tree_witness :
  exists w',
    FileUtils.performOperation (request "deleteFolder" "data") sample_world
    = (Resolved (Returned (DString "Folder deleted successfully")), w') /\
    files w' = remove_at ["home"; "app"; "data"] (files sample_world) /\
    (forall q, stat (files w') (["home"; "app"; "data"] ++ q) = NotFound) /\
    (forall q, ~ ["home"; "app"; "data"] `prefix_of` q ->
               ~ q `prefix_of` ["home"; "app"; "data"] ->
               stat (files w') q = stat (files sample_world) q) /\
    (exists e w'', FileUtils.ensureFileExists ["home"; "app"; "data"] w' = (Rejected e, w'')) /\
    (exists w'', FileUtils.deleteFolder ["home"; "app"; "data"] w' = (Resolved tt, w'') /\
                 files w'' = files w').
Proof.
  eapply (deleteFolder_removes_tree sample_world "data" no_options None None).
  reflexivity.
Defined.

(** ** The dispatcher: write and read *)

Section WriteRead.

Implicit Types (w : World) (o : option node) (p q : path) (c : list byte).

(** Writing a file leaves the other regular files as they are. *)
Lemma stat_put_file_other o o' p q c c' :
  put_file p c o = inr o' -> q <> p ->
  stat o q = Found (File c') -> stat o' q = Found (File c').
Proof.
  revert o o' q. induction p as [|x p IH]; intros o o' q Hput Hne Hq.
  - destruct o as [[c0|ch]|]; simpl in Hput; try discriminate.
    + destruct q as [|y q]; [done|]. simpl in Hq. by destruct (has_nul y).
    + by rewrite stat_None in Hq.
  - destruct o as [[c0|ch]|]; simpl in Hput; try discriminate.
    { by destruct (has_nul x). }
    destruct (has_nul x) eqn:Hn; [discriminate|].
    destruct (too_long x) eqn:Hl; [discriminate|].
    destruct (put_file p c (ch !! x)) as [e|o1] eqn:E; [discriminate|].
    injection Hput as <-.
    destruct q as [|y q]; [discriminate|].
    apply stat_found_inv in Hq as (ch' & [= <-] & Hy & Hq).
    rewrite stat_cons_dir by done.
    destruct (decide (x = y)) as [->|Hxy].
    + rewrite lookup_partial_alter_eq. eapply IH; [done| |done]. congruence.
    + by rewrite lookup_partial_alter_ne.
Qed.

Lemma stat_write_at_other o o' p q c c' :
  write_at p c o = inr o' -> q <> p ->
  stat o q = Found (File c') -> stat o' q = Found (File c').
Proof.
  unfold write_at. destruct p, o; try discriminate; apply stat_put_file_other.
Qed.

(** Whatever the encoding, the bytes written are the bytes of the data. *)
Lemma encode_bytes enc (d : Data) : encode enc d = data_bytes d.
Proof. by destruct d, enc as [[]|]. Qed.


(** A binary read gives back the bytes of the file; a text read gives back
    its bytes decoded. *)
Lemma decode_bytes_binary c : data_bytes (decode None c) = c.
Proof. done. Qed.


Lemma writeFile_ok w p (d : Data) enc o' :
  write_at p (data_bytes d) (files w) = inr o' ->
  fs.writeFile p (Some d) enc w = (Resolved tt, set_files o' (add_call (WriteFile p) w)).
Proof.
  intros H. unfold fs.writeFile. simpl.
  by rewrite (stat_found_no_nul _ _ _ (stat_write_at _ _ _ _ H)), encode_bytes, H.
Qed.

(** A [writeFile] that resolved had data to write and has left the file in
    place. *)
Lemma writeFile_resolved_inv w w' p (d : option Data) enc (u : unit) :
  fs.writeFile p d enc w = (Resolved u, w') ->
  exists d0, d = Some d0 /\ cwd w' = cwd w /\
             stat (files w') p = Found (File (data_bytes d0)).
Proof.
  unfold fs.writeFile. simpl. destruct d as [d0|]; [|discriminate].
  destruct (existsb has_nul p); [discriminate|].
  rewrite encode_bytes.
  destruct (write_at p (data_bytes d0) (files w)) as [e|o'] eqn:E; [discriminate|].
  intros [= _ <-]. exists d0. simpl. split; [done|]. split; [done|].
  by eapply stat_write_at.
Qed.

Lemma mkdir_cwd w w' p (b : bool) (out : outcome unit) :
  fs.mkdir p b w = (out, w') -> cwd w' = cwd w.
Proof.
  unfold fs.mkdir. simpl. intros H.
  repeat match type of H with
         | context [match ?x with _ => _ end] => destruct x
         end;
    by injection H as _ <-.
Qed.

(** A write that resolved has left the file in place, in the same working
    directory. *)
Lemma write_resolved_inv w w1 (name : string) (d : option Data) (opts : Options)
    (r : option Response) (v : value) :
  FileUtils.performOperation
    {| operation := "write"; filePath := name; options := opts; data := d; response := r |} w
  = (Resolved v, w1) ->
  exists d0, d = Some d0 /\
    v = Returned (DString "File written successfully") /\
    cwd w1 = cwd w /\
    stat (files w1) (path_resolve (cwd w) name) = Found (File (data_bytes d0)).
Proof.
  unfold_async. simpl. rewrite andb_false_r, andb_true_r.
  set (full := path_resolve (cwd w) name).
  set (enc := if binary opts then None else Some utf8).
  destruct (mkdir opts); simpl.
  - destruct (fs.mkdir (path_dirname full) true w) as [[[]|e] wm] eqn:E; [|discriminate].
    apply mkdir_cwd in E.
    destruct (fs.writeFile full d enc wm) as [[[]|e] w'] eqn:Ew; [|discriminate].
    intros [= <- <-].
    apply writeFile_resolved_inv in Ew as (d0 & -> & Hc & Hs).
    exists d0. repeat split; [congruence|done].
  - destruct (fs.writeFile full d enc w) as [[[]|e] w'] eqn:Ew; [|discriminate].
    intros [= <- <-].
    apply writeFile_resolved_inv in Ew as (d0 & -> & Hc & Hs).
    exists d0. by repeat split.
Qed.


End WriteRead.







(** ** The error path of the dispatcher *)

Section Raises.

Context {A B : Type}.
Implicit Types (P Q : jserror -> bool).

Lemma raises_ret P (a : A) : raises P (mret a : Async A).
Proof. intros w e w'. discriminate. Qed.

Lemma raises_throw P (e : jserror) : P e = true -> raises P (throw e : Async A).
Proof. intros H w e' w' [= <- _]. done. Qed.

Lemma raises_bind P (m : Async A) (k : A -> Async B) :
  raises P m -> (forall a, raises P (k a)) -> raises P (m ≫= k).
Proof.
  intros Hm Hk w e w'. unfold mbind, Async_bind.
  destruct (m w) as [[a|e0] w0] eqn:E.
  - apply Hk.
  - intros [= <- _]. by eapply Hm.
Qed.

Lemma raises_try_catch P Q (m : Async A) (h : jserror -> Async A) :
  raises Q m -> (forall e, Q e = true -> raises P (h e)) -> raises P (try_catch m h).
Proof.
  intros Hm Hh w e w'. unfold try_catch.
  destruct (m w) as [[a|e0] w0] eqn:E; [discriminate|].
  eapply Hh, Hm, E.
Qed.

(** A [catch] that rethrows: the rejection comes from the [try] block. *)
Lemma try_catch_throw_inv (m : Async A) (h : jserror -> jserror) w e w' :
  try_catch m (fun error => throw (h error)) w = (Rejected e, w') ->
  exists cause, m w = (Rejected cause, w') /\ e = h cause.
Proof.
  unfold try_catch, throw. destruct (m w) as [[a|cause] w0]; [discriminate|].
  intros [= <- <-]. by exists cause.
Qed.

Lemma raises_weaken P Q (m : Async A) :
  (forall e, Q e = true -> P e = true) -> raises Q m -> raises P m.
Proof. intros HPQ Hm w e w' E. eapply HPQ, Hm, E. Qed.

End Raises.

Section ErrorPath.

Implicit Types (p : path) (cfg : Config).

Lemma raises_when P (c : bool) (m : Async unit) : raises P m -> raises P (when c m).
Proof. destruct c; [done|]. intros _. apply raises_ret. Qed.

(** The platform rejects with raw errors only. *)
Lemma refusal_error_raw (r : refusal) (syscall : string) p :
  is_raw (refusal_error r syscall p) = true.
Proof. by destruct r. Qed.

Lemma fault_error_raw (f : fault) (syscall : string) p :
  is_raw (fault_error f syscall p) = true.
Proof. destruct f; [done|apply refusal_error_raw]. Qed.

(** Every way a platform call settles, and the error it rejects with. *)
Ltac settle_raw H :=
  repeat match type of H with
         | context [match ?x with _ => _ end] => destruct x
         end;
  try discriminate; injection H as <- _; try done;
  first [apply refusal_error_raw | apply fault_error_raw].

Lemma access_raises_raw p : raises is_raw (fs.access p).
Proof. intros w e w' H. unfold fs.access in H. settle_raw H. Qed.

Lemma mkdir_raises_raw p b : raises is_raw (fs.mkdir p b).
Proof. intros w e w' H. unfold fs.mkdir in H. settle_raw H. Qed.

Lemma readFile_raises_raw p enc : raises is_raw (fs.readFile p enc).
Proof. intros w e w' H. unfold fs.readFile in H. settle_raw H. Qed.

Lemma writeFile_raises_raw p d enc : raises is_raw (fs.writeFile p d enc).
Proof. intros w e w' H. unfold fs.writeFile in H. settle_raw H. Qed.

Lemma unlink_raises_raw p : raises is_raw (fs.unlink p).
Proof. intros w e w' H. unfold fs.unlink in H. settle_raw H. Qed.

Lemma rm_raises_raw p b1 b2 : raises is_raw (fs.rm p b1 b2).
Proof. intros w e w' H. unfold fs.rm in H. settle_raw H. Qed.

(** So does the file server of a response. *)
Lemma serve_failed_raw (req : Request) (c : list byte) (e : jserror) :
  serve req c = Failed e -> is_raw e = true.
Proof.
  unfold serve. intros H.
  repeat match type of H with
         | context [match ?x with _ => _ end] => destruct x
         end;
    try discriminate; by injection H as <-.
Qed.

Lemma response_download_raw (r : Response) p (w w' : World) (e : jserror) :
  response_download r p w = (Some e, w') -> is_raw e = true.
Proof.
  unfold response_download.
  destruct (existsb has_nul p); [by intros [= <- _]|].
  destruct (is_dotfile _); [by intros [= <- _]|].
  destruct (stat _ p) as [[c|ch]| | |[]]; try (by intros [= <- _]).
  destruct (serve _ c) as [part| |e0] eqn:E; try discriminate.
  intros [= <- _]. by eapply serve_failed_raw.
Qed.

(** Normalizing a raw error under a helper tag gives a helper's error. *)
Lemma helper_error_intro (raw : jserror) (op name : string) :
  is_raw raw = true -> op ∈ helper_tags ->
  helper_error (FileUtilsError raw op name) = true.
Proof.
  intros Hraw Hop. unfold FileUtilsError, helper_error.
  rewrite Hraw, String.eqb_refl, !andb_true_l.
  unfold includes. apply existsb_exists.
  exists op. split; [by apply list_elem_of_In|apply String.eqb_refl].
Qed.

Lemma raw_is_raw_or_helper e : is_raw e = true -> raw_or_helper_error e = true.
Proof. unfold raw_or_helper_error. by intros ->. Qed.

Lemma helper_is_raw_or_helper e : helper_error e = true -> raw_or_helper_error e = true.
Proof. unfold raw_or_helper_error. intros ->. apply orb_true_r. Qed.

(** The helpers reject with errors they have normalized themselves. *)
Lemma ensureFileExists_raises p : raises helper_error (FileUtils.ensureFileExists p).
Proof.
  eapply raises_try_catch; [apply access_raises_raw|].
  intros e He. apply raises_throw, helper_error_intro; [done|].
  unfold helper_tags. set_solver.
Qed.

Lemma deleteFolder_raises p : raises helper_error (FileUtils.deleteFolder p).
Proof.
  eapply raises_try_catch; [apply rm_raises_raw|].
  intros e He. apply raises_throw, helper_error_intro; [done|].
  unfold helper_tags. set_solver.
Qed.

Lemma downloadFile_raises (r : Response) (name : string) :
  raises helper_error (FileUtils.downloadFile r name).
Proof.
  intros w e w'. unfold FileUtils.downloadFile.
  destruct (response_download _ _ w) as [[error|] w0] eqn:E; intros [= <- _].
  apply helper_error_intro; [by eapply response_download_raw|].
  unfold helper_tags. set_solver.
Qed.

(** The pre-check of [ensureExistsAndDelete] normalizes its error; the
    removal after it does not. *)
Lemma ensureExistsAndDelete_raises p (isFolder : bool) :
  raises raw_or_helper_error (FileUtils.ensureExistsAndDelete p isFolder).
Proof.
  apply raises_bind.
  - eapply raises_weaken; [apply helper_is_raw_or_helper|].
    eapply raises_try_catch; [apply access_raises_raw|].
    intros e He. apply raises_throw, helper_error_intro; [done|].
    unfold helper_tags. destruct isFolder; set_solver.
  - intros _. eapply raises_weaken; [apply raw_is_raw_or_helper|].
    destruct isFolder; [apply rm_raises_raw|apply unlink_raises_raw].
Qed.

Lemma dispatch_raises cfg p : raises raw_or_helper_error (FileUtils.dispatch cfg p).
Proof.
  unfold FileUtils.dispatch.
  repeat match goal with |- context [String.eqb ?a ?b] => destruct (String.eqb a b) end.
  - apply raises_bind; [|intros; apply raises_ret].
    eapply raises_weaken; [apply raw_is_raw_or_helper|apply readFile_raises_raw].
  - apply raises_bind; [|intros; apply raises_ret].
    eapply raises_weaken; [apply raw_is_raw_or_helper|apply writeFile_raises_raw].
  - destruct (response cfg) as [r|]; [|by apply raises_throw].
    apply raises_bind; [|intros; apply raises_ret].
    eapply raises_weaken; [apply helper_is_raw_or_helper|apply downloadFile_raises].
  - apply raises_bind; [apply ensureExistsAndDelete_raises|intros _].
    apply raises_bind; [|intros; apply raises_ret].
    eapply raises_weaken; [apply raw_is_raw_or_helper|apply unlink_raises_raw].
  - apply raises_bind; [apply ensureExistsAndDelete_raises|intros _].
    apply raises_bind; [|intros; apply raises_ret].
    eapply raises_weaken; [apply helper_is_raw_or_helper|apply deleteFolder_raises].
  - by apply raises_throw.
Qed.

(** What the [try] block of [performOperation] can reject with. *)
Lemma try_block_raises cfg :
  raises raw_or_helper_error
    (fullPath ← resolve (filePath cfg);
     when (ensureExists (options cfg) && includes ["read"; "download"] (operation cfg))
          (FileUtils.ensureFileExists fullPath);;
     when (mkdir (options cfg) && includes ["write"] (operation cfg))
          (fs.mkdir (path_dirname fullPath) true);;
     FileUtils.dispatch cfg fullPath).
Proof.
  apply raises_bind; [intros w e w'; discriminate|intros full].
  apply raises_bind.
  { apply raises_when. eapply raises_weaken;
      [apply helper_is_raw_or_helper|apply ensureFileExists_raises]. }
  intros _. apply raises_bind.
  { apply raises_when. eapply raises_weaken;
      [apply raw_is_raw_or_helper|apply mkdir_raises_raw]. }
  intros _. apply dispatch_raises.
Qed.

Lemma layers_raw_or_helper e : raw_or_helper_error e = true -> layers e <= 1.
Proof.
  unfold raw_or_helper_error, helper_error, is_raw.
  destruct e as [m c|m op name [m' c'|m' op' name' o]]; simpl; try lia; try done.
Qed.

End ErrorPath.

Lemma helper_error_inv (e : jserror) :
  helper_error e = true ->
  exists raw op name,
    e = FileUtilsError raw op name /\ is_raw raw = true /\ op ∈ helper_tags.
Proof.
  destruct e as [m c|m op name raw]; [discriminate|]. unfold helper_error.
  intros H. apply andb_prop in H as [H Htag]. apply andb_prop in H as [Hraw Hm].
  apply String.eqb_eq in Hm as ->.
  exists raw, op, name. split; [done|]. split; [done|].
  unfold includes in Htag. apply existsb_exists in Htag as (t & Hin & Ht).
  apply String.eqb_eq in Ht as ->. by apply list_elem_of_In.
Qed.

(** C3, the claim as stated fails: deleting a path that does not exist
    surfaces an error whose cause is itself a [FileUtilsError], the one that
    [ensureExistsAndDelete] raised; the failure went through the normalizer
    twice. *)
Lemma cause_already_normalized_counterexample :
  exists e cause w',
    FileUtils.performOperation (request "delete" "nope.txt") sample_world
    = (Rejected e, w') /\
    err_originalError e = Some cause /\
    instanceof_FileUtilsError cause = true /\
    is_raw cause = false /\
    layers e = 2.
Proof. by eexists _, _, _. Qed.

(** C3, as amended. For every failing call to [performOperation], the error
    surfaced to the caller is the [FileUtilsError] built by the top-level
    [catch], with the requested operation and [filePath].  Its cause is
    either the raw underlying error, or a [FileUtilsError] that a helper
    built from the raw error under its own tag (ensureExists, delete,
    deleteFolder or download): the failure goes through the normalizer once
    or twice, never more. *)
Theorem failure_normalized_once_or_twice (cfg : Config) (w w' : World) (e : jserror) :
  FileUtils.performOperation cfg w = (Rejected e, w') ->
  exists cause,
    e = FileUtilsError cause (operation cfg) (filePath cfg) /\
    (is_raw cause = true \/
     exists raw op name,
       cause = FileUtilsError raw op name /\ is_raw raw = true /\ op ∈ helper_tags) /\
    1 <= layers e <= 2.
Proof.
  unfold FileUtils.performOperation. intros H.
  apply try_catch_throw_inv in H as (cause & E & ->).
  apply try_block_raises in E.
  exists cause. split; [done|]. split.
  - unfold raw_or_helper_error in E. apply orb_prop in E as [E|E]; [by left|right].
    by apply helper_error_inv.
  - apply layers_raw_or_helper in E. simpl. lia.
Qed.

Lemma failure_normalized_once_or_twice_witness :
  exists cause,
    FileUtilsError (system_error ENOENT "open" ["home"; "app"; "nope.txt"]) "read" "nope.txt"
    = FileUtilsError cause (operation (request "read" "nope.txt"))
                     (filePath (request "read" "nope.txt")) /\
    (is_raw cause = true \/
     exists raw op name,
       cause = FileUtilsError raw op name /\ is_raw raw = true /\ op ∈ helper_tags) /\
    1 <= layers (FileUtilsError (system_error ENOENT "open" ["home"; "app"; "nope.txt"])
                                "read" "nope.txt") <= 2.
Proof.
  apply (failure_normalized_once_or_twice (request "read" "nope.txt") sample_world
           (add_call (ReadFile ["home"; "app"; "nope.txt"]) sample_world)).
  reflexivity.
Defined.

(** C2, the claim as stated fails: a read with [ensureExists] of a file that
    does not exist surfaces an error whose operation is "read", the
    caller's, and not "ensureExists". *)
Lemma ensureExists_tag_counterexample :
  exists e w',
    exists_at (files sample_world)
              (path_resolve (cwd sample_world) (filePath read_missing_checked)) = false /\
    FileUtils.performOperation read_missing_checked sample_world = (Rejected e, w') /\
    err_operation e = Some "read" /\
    err_operation e <> Some "ensureExists".
Proof. by eexists _, _. Qed.

(** C2, as amended. For every request with operation read or download and
    [options.ensureExists] set, when the path does not exist the error
    surfaced to the caller is a [FileUtilsError] whose operation is the
    caller's requested operation and whose path is the request's [filePath];
    the sub-operation name "ensureExists" is carried, with the resolved
    path, by its cause, the [FileUtilsError] that the existence check
    raised around the raw error. *)
Theorem ensureExists_failure_tagged_with_request
    (w : World) (op p : string) (opts : Options) (d : option Data) (r : option Response) :
  op = "read" \/ op = "download" ->
  ensureExists opts = true ->
  exists_at (files w) (path_resolve (cwd w) p) = false ->
  exists e inner raw w',
    FileUtils.performOperation
      {| operation := op; filePath := p; options := opts; data := d; response := r |} w
    = (Rejected e, w') /\
    instanceof_FileUtilsError e = true /\
    err_operation e = Some op /\
    err_filePath e = Some p /\
    err_originalError e = Some inner /\
    err_operation inner = Some "ensureExists" /\
    err_filePath inner = Some (path_show (path_resolve (cwd w) p)) /\
    err_originalError inner = Some raw /\
    is_raw raw = true /\
    err_message e = formatErrorMessage raw /\
    files w' = files w.
Proof.
  intros Hop Hens Hmissing.
  set (full := path_resolve (cwd w) p) in *.
  destruct (access_missing w full Hmissing) as (raw & Hraw & Hacc).
  exists (FileUtilsError (FileUtilsError raw "ensureExists" (path_show full)) op p),
         (FileUtilsError raw "ensureExists" (path_show full)), raw,
         (add_call (Access full) w).
  split; [|done].
  destruct Hop as [-> | ->]; unfold_async; simpl; rewrite Hens; simpl; fold full;
    by rewrite Hacc.
Qed.

Lemma ensureExists_failure_tagged_with_request_witness :
  exists e inner raw w',
    FileUtils.performOperation read_missing_checked sample_world = (Rejected e, w') /\
    instanceof_FileUtilsError e = true /\
    err_operation e = Some "read" /\
    err_filePath e = Some "missing.txt" /\
    err_originalError e = Some inner /\
    err_operation inner = Some "ensureExists" /\
    err_filePath inner = Some (path_show (path_resolve (cwd sample_world) "missing.txt")) /\
    err_originalError inner = Some raw /\
    is_raw raw = true /\
    err_message e = formatErrorMessage raw /\
    files w' = files sample_world.
Proof.
  apply (ensureExists_failure_tagged_with_request sample_world "read" "missing.txt"
           {| ensureExists := true; mkdir := false; binary := false |} None None).
  - by left.
  - reflexivity.
  - reflexivity.
Defined.

(** ** The dispatcher: download without a response *)

(** C10, the claim as stated fails: a download without a response that asks
    for the existence check of a missing file consults the file system and
    rejects with "File not found", not with "Response object is required for
    download". *)
Lemma download_without_response_counterexample :
  exists e w',
    response download_missing_checked = None /\
    FileUtils.performOperation download_missing_checked sample_world = (Rejected e, w') /\
    err_message e = "File not found" /\
    err_message e <> "Response object is required for download" /\
    calls w' = [Access ["home"; "app"; "missing.zip"]].
Proof. by eexists _, _. Qed.

(** C10, as amended. For every request with operation download and no
    response, for which [options.ensureExists] is not set or the path
    exists, [performOperation] rejects with a [FileUtilsError] whose message
    is exactly "Response object is required for download", tagged "download"
    and carrying the request's [filePath].  Nothing is written or streamed;
    without [ensureExists] no platform call is made at all, with it the one
    call is the existence check. *)
Theorem download_without_response_rejected
    (w : World) (p : string) (opts : Options) (d : option Data) :
  ensureExists opts = false \/ exists_at (files w) (path_resolve (cwd w) p) = true ->
  exists e w',
    FileUtils.performOperation
      {| operation := "download"; filePath := p; options := opts; data := d;
         response := None |} w
    = (Rejected e, w') /\
    instanceof_FileUtilsError e = true /\
    err_message e = "Response object is required for download" /\
    err_operation e = Some "download" /\
    err_filePath e = Some p /\
    err_originalError e = Some (Error "Response object is required for download" None) /\
    files w' = files w /\
    sent w' = sent w /\
    (ensureExists opts = false -> w' = w) /\
    (ensureExists opts = true -> calls w' = calls w ++ [Access (path_resolve (cwd w) p)]).
Proof.
  intros H.
  set (full := path_resolve (cwd w) p) in *.
  exists (FileUtilsError (Error "Response object is required for download" None) "download" p).
  destruct (ensureExists opts) eqn:Hens.
  - destruct H as [H|H]; [discriminate|].
    unfold exists_at in H. destruct (stat (files w) full) as [n| | |rf] eqn:E; try discriminate.
    exists (add_call (Access full) w). split; [|by repeat split].
    unfold_async. simpl. rewrite Hens, andb_false_r. simpl. fold full.
    by rewrite (access_found _ _ _ E).
  - exists w. split; [|by repeat split].
    unfold_async. simpl. by rewrite Hens, andb_false_r.
Qed.

Lemma download_without_response_rejected_witness :
  exists e w',
    FileUtils.performOperation (request "download" "notes.txt") sample_world
    = (Rejected e, w') /\
    instanceof_FileUtilsError e = true /\
    err_message e = "Response object is required for download" /\
    err_operation e = Some "download" /\
    err_filePath e = Some "notes.txt" /\
    err_originalError e = Some (Error "Response object is required for download" None) /\
    files w' = files sample_world /\
    sent w' = sent sample_world /\
    (ensureExists no_options = false -> w' = sample_world) /\
    (ensureExists no_options = true ->
     calls w' = calls sample_world
                ++ [Access (path_resolve (cwd sample_world) "notes.txt")]).
Proof.
  apply (download_without_response_rejected sample_world "notes.txt" no_options None).
  by left.
Defined.

(** * Further properties of the code *)

(** ** What a computation leaves alone *)

Section Preserves.

Context {X : Type} (f : World -> X).

Lemma preserves_ret {A : Type} (a : A) : preserves f (mret a : Async A).
Proof. by intros w o w' [= _ <-]. Qed.

Lemma preserves_throw {A : Type} (e : jserror) : preserves f (throw e : Async A).
Proof. by intros w o w' [= _ <-]. Qed.

Lemma preserves_bind {A B : Type} (m : Async A) (k : A -> Async B) :
  preserves f m -> (forall a, preserves f (k a)) -> preserves f (m ≫= k).
Proof.
  intros Hm Hk w o w'. unfold mbind, Async_bind.
  destruct (m w) as [[a|e] w0] eqn:E.
  - intros H. rewrite (Hk _ _ _ _ H). by eapply Hm.
  - intros [= _ <-]. by eapply Hm.
Qed.

Lemma preserves_try_catch {A : Type} (m : Async A) (h : jserror -> Async A) :
  preserves f m -> (forall e, preserves f (h e)) -> preserves f (try_catch m h).
Proof.
  intros Hm Hh w o w'. unfold try_catch.
  destruct (m w) as [[a|e] w0] eqn:E.
  - intros [= _ <-]. by eapply Hm.
  - intros H. rewrite (Hh _ _ _ _ H). by eapply Hm.
Qed.

Lemma preserves_when (c : bool) (m : Async unit) :
  preserves f m -> preserves f (when c m).
Proof. destruct c; [done|]. intros _. apply preserves_ret. Qed.

Lemma resolve_preserves (name : string) : preserves f (resolve name).
Proof. by intros w o w' [= _ <-]. Qed.

(** A part of the world that the call log does not touch. *)
Hypothesis f_add_call : forall c w, f (add_call c w) = f w.

Lemma access_preserves p : preserves f (fs.access p).
Proof using Type*.
  intros w o w' H. unfold fs.access in H.
  repeat match type of H with
         | context [match ?x with _ => _ end] => destruct x
         end;
    injection H as _ <-; apply f_add_call.
Qed.

Lemma readFile_preserves p enc : preserves f (fs.readFile p enc).
Proof using Type*.
  intros w o w' H. unfold fs.readFile in H.
  repeat match type of H with
         | context [match ?x with _ => _ end] => destruct x
         end;
    injection H as _ <-; apply f_add_call.
Qed.

Lemma ensureFileExists_preserves p : preserves f (FileUtils.ensureFileExists p).
Proof using Type*.
  apply preserves_try_catch; [apply access_preserves|].
  intros e. apply preserves_throw.
Qed.

(** ... and that a change of the file tree does not touch either. *)
Hypothesis f_set_files : forall o w, f (set_files o w) = f w.

Lemma mkdir_preserves p b : preserves f (fs.mkdir p b).
Proof using Type*.
  intros w o w' H. unfold fs.mkdir in H.
  repeat match type of H with
         | context [match ?x with _ => _ end] => destruct x
         end;
    injection H as _ <-; rewrite ?f_set_files; apply f_add_call.
Qed.

Lemma writeFile_preserves p d enc : preserves f (fs.writeFile p d enc).
Proof using Type*.
  intros w o w' H. unfold fs.writeFile in H.
  repeat match type of H with
         | context [match ?x with _ => _ end] => destruct x
         end;
    injection H as _ <-; rewrite ?f_set_files; apply f_add_call.
Qed.

Lemma unlink_preserves p : preserves f (fs.unlink p).
Proof using Type*.
  intros w o w' H. unfold fs.unlink in H.
  repeat match type of H with
         | context [match ?x with _ => _ end] => destruct x
         end;
    injection H as _ <-; rewrite ?f_set_files; apply f_add_call.
Qed.

Lemma rm_preserves p b1 b2 : preserves f (fs.rm p b1 b2).
Proof using Type*.
  intros w o w' H. unfold fs.rm in H.
  repeat match type of H with
         | context [match ?x with _ => _ end] => destruct x
         end;
    injection H as _ <-; rewrite ?f_set_files; apply f_add_call.
Qed.

Lemma deleteFolder_preserves p : preserves f (FileUtils.deleteFolder p).
Proof using Type*.
  apply preserves_try_catch; [apply rm_preserves|].
  intros e. apply preserves_throw.
Qed.

Lemma ensureExistsAndDelete_preserves p (isFolder : bool) :
  preserves f (FileUtils.ensureExistsAndDelete p isFolder).
Proof using Type*.
  apply preserves_bind.
  - apply preserves_try_catch; [apply access_preserves|].
    intros e. apply preserves_throw.
  - intros _. destruct isFolder; [apply rm_preserves|apply unlink_preserves].
Qed.

End Preserves.

Lemma response_download_preserves (r : Response) (p : path) (w w' : World)
    (e : option jserror) :
  response_download r p w = (e, w') -> files w' = files w /\ cwd w' = cwd w.
Proof.
  unfold response_download. intros H.
  repeat match type of H with
         | context [match ?x with _ => _ end] => destruct x
         end;
    by injection H as _ <-.
Qed.

Lemma downloadFile_preserves_files (r : Response) (name : string) :
  preserves files (FileUtils.downloadFile r name).
Proof.
  intros w o w'. unfold FileUtils.downloadFile.
  destruct (response_download _ _ w) as [[e|] w0] eqn:E;
    intros [= _ <-]; by apply response_download_preserves in E as [? ?].
Qed.

Lemma downloadFile_preserves_cwd (r : Response) (name : string) :
  preserves cwd (FileUtils.downloadFile r name).
Proof.
  intros w o w'. unfold FileUtils.downloadFile.
  destruct (response_download _ _ w) as [[e|] w0] eqn:E;
    intros [= _ <-]; by apply response_download_preserves in E as [? ?].
Qed.

(** No operation changes the working directory. *)
Lemma performOperation_preserves_cwd (cfg : Config) :
  preserves cwd (FileUtils.performOperation cfg).
Proof.
  apply preserves_try_catch; [|intros e; apply preserves_throw].
  apply preserves_bind; [apply resolve_preserves|intros full].
  apply preserves_bind; [by apply preserves_when, ensureFileExists_preserves|intros _].
  apply preserves_bind; [by apply preserves_when, mkdir_preserves|intros _].
  unfold FileUtils.dispatch.
  repeat match goal with |- context [String.eqb ?a ?b] => destruct (String.eqb a b) end.
  - apply preserves_bind; [by apply readFile_preserves|intros; apply preserves_ret].
  - apply preserves_bind; [by apply writeFile_preserves|intros; apply preserves_ret].
  - destruct (response cfg) as [r|]; [|apply preserves_throw].
    apply preserves_bind; [apply downloadFile_preserves_cwd|intros; apply preserves_ret].
  - apply preserves_bind; [by apply ensureExistsAndDelete_preserves|intros _].
    apply preserves_bind; [by apply unlink_preserves|intros; apply preserves_ret].
  - apply preserves_bind; [by apply ensureExistsAndDelete_preserves|intros _].
    apply preserves_bind; [by apply deleteFolder_preserves|intros; apply preserves_ret].
  - apply preserves_throw.
Qed.

(** X1. Whatever the operation and however it settles, an operation other
    than write, delete and deleteFolder leaves the file tree as it was: read,
    download and unrecognised operations never create, change or remove a
    file, with or without the [ensureExists] and [mkdir] options. *)
Theorem only_write_and_delete_change_files
    (cfg : Config) (w w' : World) (o : outcome value) :
  operation cfg ∉ ["write"; "delete"; "deleteFolder"] ->
  FileUtils.performOperation cfg w = (o, w') ->
  files w' = files w.
Proof.
  intros Hop.
  apply not_elem_of_cons in Hop as [Hwrite Hop].
  apply not_elem_of_cons in Hop as [Hdelete Hop].
  apply not_elem_of_cons in Hop as [Hfolder _].
  apply String.eqb_neq in Hwrite, Hdelete, Hfolder.
  revert w o w'. change (preserves files (FileUtils.performOperation cfg)).
  apply preserves_try_catch; [|intros e; apply preserves_throw].
  apply preserves_bind; [apply resolve_preserves|intros full].
  apply preserves_bind; [by apply preserves_when, ensureFileExists_preserves|intros _].
  apply preserves_bind.
  { unfold includes. simpl. rewrite Hwrite, andb_false_r. apply preserves_ret. }
  intros _. unfold FileUtils.dispatch. rewrite Hwrite, Hdelete, Hfolder.
  repeat match goal with |- context [String.eqb ?a ?b] => destruct (String.eqb a b) end.
  - apply preserves_bind; [by apply readFile_preserves|intros; apply preserves_ret].
  - destruct (response cfg) as [r|]; [|apply preserves_throw].
    apply preserves_bind; [apply downloadFile_preserves_files|intros; apply preserves_ret].
  - apply preserves_throw.
Qed.

Lemma only_write_and_delete_change_files_witness :
  files (snd (FileUtils.performOperation
                {| operation := "download"; filePath := "notes.txt";
                   options := {| ensureExists := true; mkdir := true; binary := true |};
                   data := Some (DString "x"); response := Some {| connection := 3 |} |}
                sample_world))
  = files sample_world.
Proof.
  eapply (only_write_and_delete_change_files
            {| operation := "download"; filePath := "notes.txt";
               options := {| ensureExists := true; mkdir := true; binary := true |};
               data := Some (DString "x"); response := Some {| connection := 3 |} |}
            sample_world).
  - simpl. repeat (apply not_elem_of_cons; split; [discriminate|]). apply not_elem_of_nil.
  - apply surjective_pairing.
Defined.

(** ** What the caller reads in a rejection *)

(** The rejection of [performOperation] is built by its [catch], from a raw
    error or from the error of a helper. *)
Lemma performOperation_rejected_inv (cfg : Config) (w w' : World) (e : jserror) :
  FileUtils.performOperation cfg w = (Rejected e, w') ->
  exists cause,
    e = FileUtilsError cause (operation cfg) (filePath cfg) /\
    raw_or_helper_error cause = true.
Proof.
  unfold FileUtils.performOperation. intros H.
  apply try_catch_throw_inv in H as (cause & E & ->).
  apply try_block_raises in E. by exists cause.
Qed.

(** X2. However many times a failure was wrapped, the message the caller
    reads is the one the table gives for the raw error at the bottom of the
    [originalError] chain: wrapping an error that is already a
    [FileUtilsError] keeps its message. *)
Theorem rejection_message_from_root_cause (cfg : Config) (w w' : World) (e : jserror) :
  FileUtils.performOperation cfg w = (Rejected e, w') ->
  is_raw (root_cause e) = true /\
  err_message e = formatErrorMessage (root_cause e).
Proof.
  intros H. apply performOperation_rejected_inv in H as (cause & -> & Hc).
  unfold raw_or_helper_error in Hc. apply orb_prop in Hc as [Hc|Hc].
  - destruct cause as [m c|m op name o]; [done|discriminate].
  - apply helper_error_inv in Hc as (raw & op & name & -> & Hraw & _).
    destruct raw as [m c|m' op' name' o]; [done|discriminate].
Qed.

Lemma rejection_message_from_root_cause_witness :
  is_raw (root_cause
            (FileUtilsError
               (FileUtilsError (system_error ENOENT "access" ["home"; "app"; "nope.txt"])
                               "delete" "/home/app/nope.txt")
               "delete" "nope.txt")) = true /\
  err_message
    (FileUtilsError
       (FileUtilsError (system_error ENOENT "access" ["home"; "app"; "nope.txt"])
                       "delete" "/home/app/nope.txt")
       "delete" "nope.txt")
  = formatErrorMessage
      (root_cause
         (FileUtilsError
            (FileUtilsError (system_error ENOENT "access" ["home"; "app"; "nope.txt"])
                            "delete" "/home/app/nope.txt")
            "delete" "nope.txt")).
Proof.
  apply (rejection_message_from_root_cause (request "delete" "nope.txt") sample_world
           (add_call (Access ["home"; "app"; "nope.txt"]) sample_world)).
  reflexivity.
Defined.

(** ** Download *)









(** ** Read *)



(** ** Write *)

Section WriteEdges.

Implicit Types (w : World) (o : option node) (p q dir : path) (c : list byte).

Lemma write_at_missing_parent o dir (name : string) c :
  stat o dir = NotFound -> write_at (dir ++ [name]) c o = inl (Sys ENOENT).
Proof.
  revert o. induction dir as [|x dir IH]; intros o H.
  - destruct o; [done|]. done.
  - apply stat_not_found_inv in H as [->|(ch & -> & [Hn Hl]%name_refusal_None & H)];
      [done|].
    specialize (IH _ H). unfold write_at in *. simpl. rewrite Hn, Hl.
    destruct dir, (ch !! x); simpl in *; try done; by rewrite IH.
Qed.

Lemma write_at_on_dir o p c (ch : gmap string node) :
  stat o p = Found (Dir ch) -> write_at p c o = inl (Sys EISDIR).
Proof.
  revert o. induction p as [|x p IH]; intros o H.
  - destruct o as [n|]; simpl in H; [|done]. by injection H as ->.
  - apply stat_found_inv in H as (ch' & -> & [Hn Hl]%name_refusal_None & H).
    specialize (IH _ H). unfold write_at in *. simpl. rewrite Hn, Hl.
    destruct p, (ch' !! x); simpl in *; try done; by rewrite IH.
Qed.

(** The parent of an existing path is a directory. *)
Lemma stat_dirname_found o p n :
  stat o p = Found n -> p <> [] -> exists ch, stat o (path_dirname p) = Found (Dir ch).
Proof.
  intros H Hp. destruct (exists_last Hp) as (q & x & ->).
  unfold path_dirname. rewrite removelast_last. by eapply stat_ancestor_dir.
Qed.

Lemma mkdir_existing_dir w p (ch : gmap string node) :
  stat (files w) p = Found (Dir ch) ->
  fs.mkdir p true w = (Resolved tt, add_call (Mkdir p) w).
Proof.
  intros H. unfold fs.mkdir. simpl. by rewrite (stat_found_no_nul _ _ _ H), H.
Qed.

(** A write that the tree refuses rejects with the error of the fault. *)
Lemma writeFile_fault w p (d : Data) enc (f : fault) :
  existsb has_nul p = false ->
  write_at p (data_bytes d) (files w) = inl f ->
  fs.writeFile p (Some d) enc w
  = (Rejected (fault_error f "open" p), add_call (WriteFile p) w).
Proof.
  intros Hn H. unfold fs.writeFile. simpl. by rewrite Hn, encode_bytes, H.
Qed.

(** A file can be put into an existing directory under a name that is free
    or that of a regular file. *)
Lemma write_at_in_dir_over o dir (name : string) c (ch : gmap string node) :
  stat o dir = Found (Dir ch) ->
  (forall ch', ch !! name <> Some (Dir ch')) ->
  name_refusal name = None ->
  exists o', write_at (dir ++ [name]) c o = inr o'.
Proof.
  revert o. induction dir as [|x dir IH]; intros o H Hname Hok.
  - destruct o as [m|]; simpl in H; [|done]. injection H as ->.
    apply name_refusal_None in Hok as [Hn Hl].
    unfold write_at. simpl. rewrite Hn, Hl.
    destruct (ch !! name) as [[c'|ch']|] eqn:E; simpl; eauto.
    by destruct (Hname ch').
  - apply stat_found_inv in H as (ch' & -> & [Hn Hl]%name_refusal_None & H).
    destruct (IH _ H Hname Hok) as [o1 E]. unfold write_at in *. simpl.
    rewrite Hn, Hl.
    destruct dir, (ch' !! x); simpl in *; try done; rewrite E; eauto.
Qed.

End WriteEdges.

(** X6. A write to a portable path (no name with a NUL byte or longer than
    255 bytes, the whole shorter than 4096 bytes) whose parent directory does
    not exist, without [options.mkdir], rejects with "File not found" tagged "write" (its cause
    is the raw error of the platform) and leaves the file tree as it was:
    the parent directories are not created behind the caller's back. *)
Theorem write_missing_parent_rejected
    (w : World) (p : string) (d : Data) (opts : Options) (r : option Response)
    (dir : path) (name : string) :
  mkdir opts = false ->
  path_resolve (cwd w) p = dir ++ [name] ->
  portable (dir ++ [name]) = true ->
  stat (files w) dir = NotFound ->
  exists e w',
    FileUtils.performOperation
      {| operation := "write"; filePath := p; options := opts; data := Some d;
         response := r |} w
    = (Rejected e, w') /\
    err_message e = "File not found" /\
    err_operation e = Some "write" /\
    err_filePath e = Some p /\
    layers e = 1 /\
    files w' = files w.
Proof.
  intros Hmk Hfull Hp%portable_no_nul Hdir.
  exists (FileUtilsError (system_error ENOENT "open" (dir ++ [name])) "write" p).
  exists (add_call (WriteFile (dir ++ [name])) w).
  split; [|done].
  unfold_async. simpl. rewrite Hmk, andb_false_r, Hfull. simpl.
  by rewrite (writeFile_fault _ _ _ _ _ Hp (write_at_missing_parent _ _ _ _ Hdir)).
Qed.

Lemma write_missing_parent_rejected_witness :
  exists e w',
    FileUtils.performOperation
      {| operation := "write"; filePath := "a/b/c.txt"; options := no_options;
         data := Some (DString "hi"); response := None |} sample_world
    = (Rejected e, w') /\
    err_message e = "File not found" /\
    err_operation e = Some "write" /\
    err_filePath e = Some "a/b/c.txt" /\
    layers e = 1 /\
    files w' = files sample_world.
Proof.
  apply (write_missing_parent_rejected sample_world "a/b/c.txt" (DString "hi") no_options
           None ["home"; "app"; "a"; "b"] "c.txt"); reflexivity.
Defined.

(** X7. The directories that [options.mkdir] creates outlive a write that
    fails: a write without data ([data] left [null]) to a portable path in
    a missing directory rejects, with the message of the platform's type error passed
    through and tagged "write", but the parent directory has been created
    and stays, and no file is written. *)
Theorem write_without_data_keeps_directories
    (w : World) (p : string) (opts : Options) (r : option Response)
    (dir : path) (name : string) :
  mkdir opts = true ->
  path_resolve (cwd w) p = dir ++ [name] ->
  portable (dir ++ [name]) = true ->
  stat (files w) dir = NotFound ->
  exists e w',
    FileUtils.performOperation
      {| operation := "write"; filePath := p; options := opts; data := None;
         response := r |} w
    = (Rejected e, w') /\
    err_message e = err_message invalid_data_error /\
    err_operation e = Some "write" /\
    files w' = mkdirp dir (files w) /\
    stat (files w') dir = Found (Dir ∅) /\
    stat (files w') (dir ++ [name]) = NotFound.
Proof.
  intros Hmk Hfull Hp Hdir.
  apply portable_path_refusal, path_refusal_app in Hp as [Hp Hname%path_refusal_last].
  exists (FileUtilsError invalid_data_error "write" p).
  exists (add_call (WriteFile (dir ++ [name]))
            (set_files (mkdirp dir (files w)) (add_call (Mkdir dir) w))).
  split.
  - unfold_async. simpl. rewrite andb_false_r, Hmk, Hfull. unfold path_dirname.
    rewrite removelast_last. simpl.
    by rewrite (mkdir_not_found _ _ Hp Hdir).
  - simpl. pose proof (stat_mkdirp _ _ Hp Hdir) as Hmade.
    repeat split; [done|].
    rewrite (stat_app _ _ [name] _ Hmade), stat_cons_dir by done.
    by rewrite lookup_empty.
Qed.

Lemma write_without_data_keeps_directories_witness :
  exists e w',
    FileUtils.performOperation
      {| operation := "write"; filePath := "a/b/c.txt";
         options := {| ensureExists := false; mkdir := true; binary := false |};
         data := None; response := None |} sample_world
    = (Rejected e, w') /\
    err_message e = err_message invalid_data_error /\
    err_operation e = Some "write" /\
    files w' = mkdirp ["home"; "app"; "a"; "b"] (files sample_world) /\
    stat (files w') ["home"; "app"; "a"; "b"] = Found (Dir ∅) /\
    stat (files w') (["home"; "app"; "a"; "b"] ++ ["c.txt"]) = NotFound.
Proof.
  apply (write_without_data_keeps_directories sample_world "a/b/c.txt"
           {| ensureExists := false; mkdir := true; binary := false |} None
           ["home"; "app"; "a"; "b"] "c.txt"); reflexivity.
Defined.

(** X8. A write whose target is an existing directory rejects with "Is a
    directory, not a file", tagged "write", whatever the options, and leaves
    the file tree as it was. *)
Theorem write_onto_directory_rejected
    (w : World) (p : string) (d : Data) (opts : Options) (r : option Response)
    (ch : gmap string node) :
  stat (files w) (path_resolve (cwd w) p) = Found (Dir ch) ->
  exists e w',
    FileUtils.performOperation
      {| operation := "write"; filePath := p; options := opts; data := Some d;
         response := r |} w
    = (Rejected e, w') /\
    err_message e = "Is a directory, not a file" /\
    err_operation e = Some "write" /\
    err_filePath e = Some p /\
    layers e = 1 /\
    files w' = files w.
Proof.
  intros Hstat. set (full := path_resolve (cwd w) p) in *.
  exists (FileUtilsError (system_error EISDIR "open" full) "write" p).
  assert (Hparent : exists ch', stat (files w) (path_dirname full) = Found (Dir ch')).
  { destruct full as [|x q] eqn:E; [by exists ch|].
    by eapply stat_dirname_found. }
  destruct Hparent as [ch' Hparent].
  exists (add_call (WriteFile full)
            (if mkdir opts then add_call (Mkdir (path_dirname full)) w else w)).
  split; [|by destruct (mkdir opts)].
  pose proof (stat_found_no_nul _ _ _ Hstat) as Hnul.
  unfold_async. simpl. rewrite andb_false_r, andb_true_r. fold full.
  destruct (mkdir opts); simpl.
  - rewrite (mkdir_existing_dir _ _ _ Hparent).
    by rewrite (writeFile_fault (add_call (Mkdir (path_dirname full)) w) _ _ _ _ Hnul
                  (write_at_on_dir _ _ _ _ Hstat)).
  - by rewrite (writeFile_fault _ _ _ _ _ Hnul (write_at_on_dir _ _ _ _ Hstat)).
Qed.

Lemma write_onto_directory_rejected_witness :
  exists e w',
    FileUtils.performOperation
      {| operation := "write"; filePath := "data";
         options := {| ensureExists := false; mkdir := true; binary := false |};
         data := Some (DString "hi"); response := None |} sample_world
    = (Rejected e, w') /\
    err_message e = "Is a directory, not a file" /\
    err_operation e = Some "write" /\
    err_filePath e = Some "data" /\
    layers e = 1 /\
    files w' = files sample_world.
Proof.
  eapply (write_onto_directory_rejected sample_world "data" (DString "hi")
            {| ensureExists := false; mkdir := true; binary := false |} None).
  reflexivity.
Defined.

(** X9. A write to a portable path in an existing directory, under a name
    that is free or that of a regular file, resolves with "File written successfully"
    whatever the options: the file then holds exactly the bytes of the data
    (an old content is replaced, not appended to) and every other regular
    file is untouched. *)
Theorem write_creates_or_overwrites
    (w : World) (p : string) (d : Data) (opts : Options) (r : option Response)
    (dir : path) (name : string) (ch : gmap string node) :
  path_resolve (cwd w) p = dir ++ [name] ->
  portable (dir ++ [name]) = true ->
  stat (files w) dir = Found (Dir ch) ->
  (forall ch', ch !! name <> Some (Dir ch')) ->
  exists w',
    FileUtils.performOperation
      {| operation := "write"; filePath := p; options := opts; data := Some d;
         response := r |} w
    = (Resolved (Returned (DString "File written successfully")), w') /\
    stat (files w') (dir ++ [name]) = Found (File (data_bytes d)) /\
    (forall q c, q <> dir ++ [name] ->
                 stat (files w) q = Found (File c) -> stat (files w') q = Found (File c)).
Proof.
  intros Hfull Hp Hdir Hname.
  apply portable_path_refusal, path_refusal_app in Hp as [_ Hp%path_refusal_last].
  destruct (write_at_in_dir_over (files w) dir name (data_bytes d) ch Hdir Hname Hp)
    as [o' Hput].
  exists (set_files o' (add_call (WriteFile (dir ++ [name]))
                          (if mkdir opts then add_call (Mkdir dir) w else w))).
  split; [|split].
  - unfold_async. simpl. rewrite andb_false_r, andb_true_r, Hfull. unfold path_dirname.
    rewrite removelast_last.
    destruct (mkdir opts); simpl.
    + rewrite (mkdir_existing_dir _ _ _ Hdir). simpl.
      by rewrite (writeFile_ok _ _ _ _ o').
    + by rewrite (writeFile_ok _ _ _ _ o').
  - simpl. by eapply stat_write_at.
  - intros q c Hq Hc. simpl. by eapply stat_write_at_other.
Qed.

Lemma write_creates_or_overwrites_witness :
  exists w',
    FileUtils.performOperation
      {| operation := "write"; filePath := "notes.txt"; options := no_options;
         data := Some (DString "bye"); response := None |} sample_world
    = (Resolved (Returned (DString "File written successfully")), w') /\
    stat (files w') (["home"; "app"] ++ ["notes.txt"])
    = Found (File (data_bytes (DString "bye"))) /\
    (forall q c, q <> ["home"; "app"] ++ ["notes.txt"] ->
                 stat (files sample_world) q = Found (File c) ->
                 stat (files w') q = Found (File c)).
Proof.
  eapply (write_creates_or_overwrites sample_world "notes.txt" (DString "bye") no_options
            None ["home"; "app"] "notes.txt").
  - reflexivity.
  - reflexivity.
  - reflexivity.
  - intros ch' H. vm_compute in H. discriminate H.
Defined.

(** X10. For a write, [options.binary] makes no difference: a string is
    written in UTF-8 and a [Buffer] as it is, under either setting, so the
    two calls settle alike and leave the same world. *)
Theorem write_binary_irrelevant
    (w : World) (p : string) (d : option Data) (ens mk : bool) (r : option Response) :
  FileUtils.performOperation
    {| operation := "write"; filePath := p;
       options := {| ensureExists := ens; mkdir := mk; binary := true |};
       data := d; response := r |} w
  = FileUtils.performOperation
      {| operation := "write"; filePath := p;
         options := {| ensureExists := ens; mkdir := mk; binary := false |};
         data := d; response := r |} w.
Proof.
  unfold_async. unfold fs.writeFile. simpl. rewrite andb_false_r, andb_true_r.
  destruct mk; simpl.
  - destruct (fs.mkdir _ true w) as [[[]|e] w1]; [|done].
    destruct d as [d|]; [|done]. by rewrite !encode_bytes.
  - destruct d as [d|]; [|done]. by rewrite !encode_bytes.
Qed.

(** ** Delete and deleteFolder, once more *)

Section DeleteRuns.

Implicit Types (w : World) (p : path).

Lemma unlink_dir w p (ch : gmap string node) :
  stat (files w) p = Found (Dir ch) ->
  fs.unlink p w = (Rejected (system_error EISDIR "unlink" p), add_call (Unlink p) w).
Proof.
  intros H. unfold fs.unlink. simpl. by rewrite (stat_found_no_nul _ _ _ H), H.
Qed.

(** How deleteFolder runs on a path that exists, file or directory. *)
Lemma deleteFolder_found_run w (name : string) (opts : Options) (d : option Data)
    (r : option Response) (n : node) :
  stat (files w) (path_resolve (cwd w) name) = Found n ->
  FileUtils.performOperation
    {| operation := "deleteFolder"; filePath := name; options := opts; data := d;
       response := r |} w
  = (Resolved (Returned (DString "Folder deleted successfully")),
     add_call (Rm (path_resolve (cwd w) name))
       (set_files (remove_at (path_resolve (cwd w) name) (files w))
          (add_call (Rm (path_resolve (cwd w) name))
             (add_call (Access (path_resolve (cwd w) name)) w)))).
Proof.
  intros Hstat. set (full := path_resolve (cwd w) name) in *.
  unfold_async. simpl. rewrite !andb_false_r. fold full.
  rewrite (access_found _ _ _ Hstat).
  rewrite (rm_found _ _ n) by done.
  rewrite (rm_not_found _ _ (stat_found_no_nul _ _ _ Hstat))
    by (simpl; by eapply stat_remove_at).
  done.
Qed.

(** How deleteFolder runs on a path that is not found. *)
Lemma deleteFolder_missing_run w (name : string) (opts : Options) (d : option Data)
    (r : option Response) :
  existsb has_nul (path_resolve (cwd w) name) = false ->
  stat (files w) (path_resolve (cwd w) name) = NotFound ->
  FileUtils.performOperation
    {| operation := "deleteFolder"; filePath := name; options := opts; data := d;
       response := r |} w
  = (Rejected (FileUtilsError
                 (FileUtilsError (system_error ENOENT "access" (path_resolve (cwd w) name))
                                 "deleteFolder" (path_show (path_resolve (cwd w) name)))
                 "deleteFolder" name),
     add_call (Access (path_resolve (cwd w) name)) w).
Proof.
  intros Hnul Hstat. unfold_async. simpl. rewrite !andb_false_r.
  by rewrite (access_not_found _ _ Hnul Hstat).
Qed.

End DeleteRuns.

(** X11. deleteFolder does not ask for a folder: on an existing regular
    file it removes the file and resolves with "Folder deleted
    successfully"; what is not at the path is untouched. *)
Theorem deleteFolder_removes_regular_file
    (w : World) (p : string) (opts : Options) (d : option Data) (r : option Response)
    (c : list byte) :
  stat (files w) (path_resolve (cwd w) p) = Found (File c) ->
  exists w',
    FileUtils.performOperation
      {| operation := "deleteFolder"; filePath := p; options := opts; data := d;
         response := r |} w
    = (Resolved (Returned (DString "Folder deleted successfully")), w') /\
    stat (files w') (path_resolve (cwd w) p) = NotFound /\
    (forall q, ~ path_resolve (cwd w) p `prefix_of` q ->
               ~ q `prefix_of` path_resolve (cwd w) p ->
               stat (files w') q = stat (files w) q).
Proof.
  intros Hstat. eexists. split; [by eapply deleteFolder_found_run|].
  simpl. split.
  - by eapply stat_remove_at.
  - intros q Hpq Hqp. by apply stat_remove_at_other.
Qed.

Lemma deleteFolder_removes_regular_file_witness :
  exists w',
    FileUtils.performOperation (request "deleteFolder" "notes.txt") sample_world
    = (Resolved (Returned (DString "Folder deleted successfully")), w') /\
    stat (files w') (path_resolve (cwd sample_world) "notes.txt") = NotFound /\
    (forall q, ~ path_resolve (cwd sample_world) "notes.txt" `prefix_of` q ->
               ~ q `prefix_of` path_resolve (cwd sample_world) "notes.txt" ->
               stat (files w') q = stat (files sample_world) q).
Proof.
  apply (deleteFolder_removes_regular_file sample_world "notes.txt" no_options None None
           bytes_hello).
  reflexivity.
Defined.

(** X12. delete on an existing directory removes nothing: the existence
    check passes, the unlink is refused by the platform, and the call
    rejects with "Is a directory, not a file", tagged "delete", its cause
    the raw error. *)
Theorem delete_directory_rejected
    (w : World) (p : string) (opts : Options) (d : option Data) (r : option Response)
    (ch : gmap string node) :
  stat (files w) (path_resolve (cwd w) p) = Found (Dir ch) ->
  exists e w',
    FileUtils.performOperation
      {| operation := "delete"; filePath := p; options := opts; data := d;
         response := r |} w
    = (Rejected e, w') /\
    err_message e = "Is a directory, not a file" /\
    err_operation e = Some "delete" /\
    err_filePath e = Some p /\
    layers e = 1 /\
    files w' = files w.
Proof.
  intros Hstat. set (full := path_resolve (cwd w) p) in *.
  exists (FileUtilsError (system_error EISDIR "unlink" full) "delete" p).
  exists (add_call (Unlink full) (add_call (Access full) w)).
  split; [|done].
  unfold_async. simpl. rewrite !andb_false_r. fold full.
  rewrite (access_found _ _ _ Hstat).
  by rewrite (unlink_dir _ _ ch).
Qed.

Lemma delete_directory_rejected_witness :
  exists e w',
    FileUtils.performOperation (request "delete" "data") sample_world = (Rejected e, w') /\
    err_message e = "Is a directory, not a file" /\
    err_operation e = Some "delete" /\
    err_filePath e = Some "data" /\
    layers e = 1 /\
    files w' = files sample_world.
Proof.
  eapply (delete_directory_rejected sample_world "data" no_options None None).
  reflexivity.
Defined.

(** X13. deleteFolder is not idempotent for the caller: after a
    deleteFolder that resolved, the same request rejects with "File not
    found", tagged "deleteFolder", and changes nothing. *)
Theorem deleteFolder_twice
    (w : World) (p : string) (opts : Options) (d : option Data) (r : option Response)
    (n : node) :
  stat (files w) (path_resolve (cwd w) p) = Found n ->
  exists w1 e w2,
    FileUtils.performOperation
      {| operation := "deleteFolder"; filePath := p; options := opts; data := d;
         response := r |} w
    = (Resolved (Returned (DString "Folder deleted successfully")), w1) /\
    FileUtils.performOperation
      {| operation := "deleteFolder"; filePath := p; options := opts; data := d;
         response := r |} w1
    = (Rejected e, w2) /\
    err_message e = "File not found" /\
    err_operation e = Some "deleteFolder" /\
    files w2 = files w1.
Proof.
  intros Hstat. eexists _, _, _.
  split; [by eapply deleteFolder_found_run|].
  split; [apply deleteFolder_missing_run; simpl;
            [by eapply stat_found_no_nul|by eapply stat_remove_at]|done].
Qed.

Lemma deleteFolder_twice_witness :
  exists w1 e w2,
    FileUtils.performOperation (request "deleteFolder" "data") sample_world
    = (Resolved (Returned (DString "Folder deleted successfully")), w1) /\
    FileUtils.performOperation (request "deleteFolder" "data") w1 = (Rejected e, w2) /\
    err_message e = "File not found" /\
    err_operation e = Some "deleteFolder" /\
    files w2 = files w1.
Proof.
  eapply (deleteFolder_twice sample_world "data" no_options None None).
  reflexivity.
Defined.

(** X14. delete and deleteFolder look at nothing but the path: whatever the
    options, the data and the response of the request, they settle as the
    bare request does and leave the same world. *)
Theorem delete_ignores_options
    (w : World) (op p : string) (opts : Options) (d : option Data) (r : option Response) :
  op = "delete" \/ op = "deleteFolder" ->
  FileUtils.performOperation
    {| operation := op; filePath := p; options := opts; data := d; response := r |} w
  = FileUtils.performOperation (request op p) w.
Proof.
  intros [-> | ->]; unfold_async; simpl; by rewrite !andb_false_r.
Qed.

Lemma delete_ignores_options_witness :
  FileUtils.performOperation
    {| operation := "deleteFolder"; filePath := "data";
       options := {| ensureExists := true; mkdir := true; binary := true |};
       data := Some (DString "x"); response := Some {| connection := 2 |} |} sample_world
  = FileUtils.performOperation (request "deleteFolder" "data") sample_world.
Proof.
  apply (delete_ignores_options sample_world "deleteFolder" "data"
           {| ensureExists := true; mkdir := true; binary := true |}
           (Some (DString "x")) (Some {| connection := 2 |})).
  by right.
Defined.

(** ** The helper [deleteFolder] on its own *)

(** X15. [FileUtils.deleteFolder] tolerates a path that is already gone:
    on a portable path, other than the root, that does not run through a
    regular file it resolves, leaves nothing at the path, and a second call
    resolves too and changes nothing more. *)
Theorem deleteFolder_helper_idempotent (w : World) (p : path) :
  p <> [] ->
  portable p = true ->
  stat (files w) p <> NotDir ->
  exists w1 w2,
    FileUtils.deleteFolder p w = (Resolved tt, w1) /\
    stat (files w1) p = NotFound /\
    FileUtils.deleteFolder p w1 = (Resolved tt, w2) /\
    files w2 = files w1.
Proof.
  intros _ Hp H. unfold_async. pose proof (portable_no_nul _ Hp) as Hnul.
  destruct (stat (files w) p) as [n| | |rf] eqn:E;
    [| |done|by destruct (portable_not_refused (files w) p rf Hp)].
  - rewrite (rm_found _ _ n) by done.
    assert (Hgone : stat (remove_at p (files w)) p = NotFound) by (by eapply stat_remove_at).
    eexists _, _. split; [done|]. split; [done|].
    rewrite (rm_not_found _ _ Hnul) by done. done.
  - rewrite (rm_not_found _ _ Hnul) by done.
    eexists _, _. split; [done|]. split; [done|].
    rewrite (rm_not_found _ _ Hnul) by done. done.
Qed.

Lemma deleteFolder_helper_idempotent_witness :
  exists w1 w2,
    FileUtils.deleteFolder ["home"; "app"; "data"] sample_world = (Resolved tt, w1) /\
    stat (files w1) ["home"; "app"; "data"] = NotFound /\
    FileUtils.deleteFolder ["home"; "app"; "data"] w1 = (Resolved tt, w2) /\
    files w2 = files w1.
Proof.
  apply (deleteFolder_helper_idempotent sample_world ["home"; "app"; "data"]).
  - discriminate.
  - reflexivity.
  - vm_compute. discriminate.
Defined.

(** ** The routes *)

(** X16. Neither route ever answers with the generic "An unexpected error
    occurred": the download route sends no JSON at all (the file was
    streamed) or a 500 whose body has the fields error, operation
    ("download") and filePath (the route's own path); the delete route sends
    200 with its success message or a 500 of the same shape, tagged
    "deleteFolder". *)
Theorem routes_never_answer_generic (res : Response) (w : World) :
  (replied (fst (download_file_route res w)) = None \/
   exists m,
     replied (fst (download_file_route res w))
     = Some {| status := 500;
               body := [("error", m); ("operation", "download");
                        ("filePath", "path/to/file.zip")] |}) /\
  (replied (fst (delete_folder_route res w))
   = Some {| status := 200; body := [("message", "Folder deleted successfully")] |} \/
   exists m,
     replied (fst (delete_folder_route res w))
     = Some {| status := 500;
               body := [("error", m); ("operation", "deleteFolder");
                        ("filePath", "path/to/folder")] |}).
Proof.
  unfold download_file_route, delete_folder_route. split.
  - destruct (FileUtils.performOperation _ w) as [[v|e] w'] eqn:E; [by left|right].
    apply performOperation_rejected_inv in E as (cause & -> & _). by eexists.
  - destruct (FileUtils.performOperation _ w) as [[v|e] w'] eqn:E; [by left|right].
    apply performOperation_rejected_inv in E as (cause & -> & _). by eexists.
Qed.

(** X17. The delete route, when its folder exists (or a file under that
    name), removes it and answers 200 with "Folder deleted successfully";
    nothing is written to the console. *)
Theorem delete_folder_route_success (res : Response) (w : World) (n : node) :
  stat (files w) (path_resolve (cwd w) "path/to/folder") = Found n ->
  exists w',
    delete_folder_route res w
    = ({| replied := Some {| status := 200;
                             body := [("message", "Folder deleted successfully")] |};
          logged := [] |}, w') /\
    files w' = remove_at (path_resolve (cwd w) "path/to/folder") (files w) /\
    stat (files w') (path_resolve (cwd w) "path/to/folder") = NotFound.
Proof.
  intros Hstat. unfold delete_folder_route.
  rewrite (deleteFolder_found_run _ _ _ _ _ n Hstat).
  eexists. split; [done|]. simpl. split; [done|]. by eapply stat_remove_at.
Qed.

Lemma delete_folder_route_success_witness :
  exists w',
    delete_folder_route {| connection := 1 |} server_world
    = ({| replied := Some {| status := 200;
                             body := [("message", "Folder deleted successfully")] |};
          logged := [] |}, w') /\
    files w' = remove_at (path_resolve (cwd server_world) "path/to/folder")
                         (files server_world) /\
    stat (files w') (path_resolve (cwd server_world) "path/to/folder") = NotFound.
Proof.
  eapply (delete_folder_route_success {| connection := 1 |} server_world).
  reflexivity.
Defined.

(** X18. The delete route, when its folder is not found, answers 500 with
    error "File not found", operation "deleteFolder" and the route's path,
    logs the message on the console and removes nothing. *)
Theorem delete_folder_route_missing (res : Response) (w : World) :
  stat (files w) (path_resolve (cwd w) "path/to/folder") = NotFound ->
  exists w',
    delete_folder_route res w
    = ({| replied := Some {| status := 500;
                             body := [("error", "File not found");
                                      ("operation", "deleteFolder");
                                      ("filePath", "path/to/folder")] |};
          logged := [[Text "FileUtilsError:"; Text "File not found"]] |}, w') /\
    files w' = files w.
Proof.
  intros Hstat. unfold delete_folder_route.
  rewrite (deleteFolder_missing_run _ _ _ _ _ (route_folder_no_nul w) Hstat).
  eexists. split; done.
Qed.

Lemma delete_folder_route_missing_witness :
  exists w',
    delete_folder_route {| connection := 1 |} sample_world
    = ({| replied := Some {| status := 500;
                             body := [("error", "File not found");
                                      ("operation", "deleteFolder");
                                      ("filePath", "path/to/folder")] |};
          logged := [[Text "FileUtilsError:"; Text "File not found"]] |}, w') /\
    files w' = files sample_world.
Proof.
  apply (delete_folder_route_missing {| connection := 1 |} sample_world).
  reflexivity.
Defined.






(** ** Read, once more *)

(** X21. A read of a portable path that is not found rejects with "File
    not found", tagged "read" and carrying the request's path, and changes
    no file; with [options.ensureExists] the failure is wrapped twice,
    without it once. *)
Theorem read_missing_rejected
    (w : World) (p : string) (opts : Options) (d : option Data) (r : option Response) :
  portable (path_resolve (cwd w) p) = true ->
  stat (files w) (path_resolve (cwd w) p) = NotFound ->
  exists e w',
    FileUtils.performOperation
      {| operation := "read"; filePath := p; options := opts; data := d; response := r |} w
    = (Rejected e, w') /\
    err_message e = "File not found" /\
    err_operation e = Some "read" /\
    err_filePath e = Some p /\
    layers e = (if ensureExists opts then 2 else 1) /\
    files w' = files w.
Proof.
  intros Hp%portable_no_nul Hstat.
  unfold_async. simpl. rewrite andb_false_r, andb_true_r.
  destruct (ensureExists opts); simpl.
  - rewrite (access_not_found _ _ Hp Hstat). by eexists _, _.
  - rewrite (readFile_not_found _ _ _ Hp Hstat). by eexists _, _.
Qed.

Lemma read_missing_rejected_witness :
  exists e w',
    FileUtils.performOperation read_missing_checked sample_world = (Rejected e, w') /\
    err_message e = "File not found" /\
    err_operation e = Some "read" /\
    err_filePath e = Some "missing.txt" /\
    layers e = (if ensureExists (options read_missing_checked) then 2 else 1) /\
    files w' = files sample_world.
Proof.
  apply (read_missing_rejected sample_world "missing.txt"
           {| ensureExists := true; mkdir := false; binary := false |} None None);
    reflexivity.
Defined.

(** X22. A read of an existing directory rejects with "Is a directory, not
    a file", tagged "read", its cause the raw error; [options.ensureExists]
    does not catch it, since the directory exists. *)
Theorem read_directory_rejected
    (w : World) (p : string) (opts : Options) (d : option Data) (r : option Response)
    (ch : gmap string node) :
  stat (files w) (path_resolve (cwd w) p) = Found (Dir ch) ->
  exists e w',
    FileUtils.performOperation
      {| operation := "read"; filePath := p; options := opts; data := d; response := r |} w
    = (Rejected e, w') /\
    err_message e = "Is a directory, not a file" /\
    err_operation e = Some "read" /\
    err_filePath e = Some p /\
    layers e = 1 /\
    files w' = files w.
Proof.
  intros Hstat. pose proof (stat_found_no_nul _ _ _ Hstat) as Hnul.
  unfold_async. unfold fs.readFile. simpl. rewrite andb_false_r, andb_true_r.
  destruct (ensureExists opts); simpl.
  - rewrite (access_found _ _ _ Hstat). simpl. rewrite Hnul, Hstat. by eexists _, _.
  - rewrite Hnul, Hstat. by eexists _, _.
Qed.

Lemma read_directory_rejected_witness :
  exists e w',
    FileUtils.performOperation
      {| operation := "read"; filePath := "data";
         options := {| ensureExists := true; mkdir := false; binary := false |};
         data := None; response := None |} sample_world
    = (Rejected e, w') /\
    err_message e = "Is a directory, not a file" /\
    err_operation e = Some "read" /\
    err_filePath e = Some "data" /\
    layers e = 1 /\
    files w' = files sample_world.
Proof.
  eapply (read_directory_rejected sample_world "data"
            {| ensureExists := true; mkdir := false; binary := false |} None None).
  reflexivity.
Defined.

(** ** The helper [ensureExistsAndDelete] on its own *)

(** X23. When [FileUtils.ensureExistsAndDelete] resolves, the deletion is
    done: the path existed before and nothing is left at it afterwards,
    whichever kind of removal was asked for. *)
Theorem ensureExistsAndDelete_deletes
    (w w' : World) (p : path) (isFolder : bool) :
  FileUtils.ensureExistsAndDelete p isFolder w = (Resolved tt, w') ->
  exists_at (files w) p = true /\
  files w' = remove_at p (files w) /\
  stat (files w') p = NotFound.
Proof.
  unfold_async. unfold fs.access, fs.unlink, fs.rm, exists_at. simpl.
  destruct (existsb has_nul p) eqn:Hn; [discriminate|].
  destruct (stat (files w) p) as [[c|ch]| | |rf] eqn:E; simpl; try discriminate.
  - destruct isFolder; simpl; rewrite ?Hn, E; intros [= <-]; simpl;
      (split; [done|]; split; [done|]; by eapply stat_remove_at).
  - destruct isFolder; simpl; rewrite ?Hn, E; [|discriminate].
    intros [= <-]. simpl. split; [done|]. split; [done|]. by eapply stat_remove_at.
Qed.

Lemma ensureExistsAndDelete_deletes_witness :
  exists_at (files sample_world) ["home"; "app"; "notes.txt"] = true /\
  files (snd (FileUtils.ensureExistsAndDelete ["home"; "app"; "notes.txt"] false
                sample_world))
  = remove_at ["home"; "app"; "notes.txt"] (files sample_world) /\
  stat (files (snd (FileUtils.ensureExistsAndDelete ["home"; "app"; "notes.txt"] false
                      sample_world)))
       ["home"; "app"; "notes.txt"] = NotFound.
Proof.
  apply (ensureExistsAndDelete_deletes sample_world _ ["home"; "app"; "notes.txt"] false).
  reflexivity.
Defined.

(** ** Write, deleteFolder, read *)

(** X24. What a write put in place, deleteFolder takes away: after a write
    that resolved, a deleteFolder of the same path resolves, and a read of
    the path then rejects with "File not found". *)
Theorem write_deleteFolder_read
    (w w1 : World) (p : string) (d : option Data) (opts : Options)
    (r : option Response) (v : value) :
  FileUtils.performOperation
    {| operation := "write"; filePath := p; options := opts; data := d; response := r |} w
  = (Resolved v, w1) ->
  exists w2 e w3,
    FileUtils.performOperation (request "deleteFolder" p) w1
    = (Resolved (Returned (DString "Folder deleted successfully")), w2) /\
    FileUtils.performOperation (request "read" p) w2 = (Rejected e, w3) /\
    err_message e = "File not found" /\
    err_operation e = Some "read".
Proof.
  intros Hwrite.
  apply write_resolved_inv in Hwrite as (d0 & _ & _ & Hcwd & Hstat).
  rewrite <- Hcwd in Hstat.
  eexists _, _, _.
  split; [by eapply deleteFolder_found_run|].
  assert (Hgone : stat (remove_at (path_resolve (cwd w1) p) (files w1))
                       (path_resolve (cwd w1) p) = NotFound)
    by (by eapply stat_remove_at).
  pose proof (stat_found_no_nul _ _ _ Hstat) as Hnul.
  split; [unfold_async; simpl; rewrite readFile_not_found by done; reflexivity|done].
Qed.

Lemma write_deleteFolder_read_witness :
  exists w2 e w3,
    FileUtils.performOperation (request "deleteFolder" "notes.txt")
      (snd (FileUtils.performOperation
              {| operation := "write"; filePath := "notes.txt"; options := no_options;
                 data := Some (DString "bye"); response := None |} sample_world))
    = (Resolved (Returned (DString "Folder deleted successfully")), w2) /\
    FileUtils.performOperation (request "read" "notes.txt") w2 = (Rejected e, w3) /\
    err_message e = "File not found" /\
    err_operation e = Some "read".
Proof.
  eapply (write_deleteFolder_read sample_world _ "notes.txt" (Some (DString "bye"))
            no_options None).
  reflexivity.
Defined.
